(** * Workspace Manager: a shallow embedding of [workspace_manager.py] and
    [chrome_flow.py], and the properties of their observable behaviour.

    The program talks to the operating system through three primitives only:
    [print], [time.sleep] and [subprocess.run(["osascript", "-e", script])].
    A run is modelled as a function from the history of primitive calls made
    so far to an outcome (a value or a raised exception) together with the
    events the run adds to that history.  The operating system is a [world]:
    it chooses, from the history, what an [osascript] call does and whether a
    Ctrl-C arrives while the program is blocked in a sleep or in an
    [osascript] call ([print] is taken not to be interrupted).

    Characters of a [string] stand for code points below 256. *)

From Stdlib Require Import Ascii.
From stdpp Require Import base list strings gmap pretty.

(** ** Python built-ins used by the program *)

Module Py.

(** [str.isspace] on the code points below 256. *)
Definition isspace (c : ascii) : bool :=
  let n := Ascii.N_of_ascii c in
  ((9 <=? n) && (n <=? 13) || (28 <=? n) && (n <=? 31)
   || (n =? 32) || (n =? 133) || (n =? 160))%N.

Fixpoint lstrip (s : string) : string :=
  match s with
  | "" => ""
  | String c s' => if isspace c then lstrip s' else s
  end.

Definition rstrip (s : string) : string :=
  String.rev (lstrip (String.rev s)).

(** [s.strip()] *)
Definition strip (s : string) : string := rstrip (lstrip s).

(** [s.split(sep)] for a one-character separator. *)
Fixpoint split (sep : ascii) (s : string) : list string :=
  match s with
  | "" => [""]
  | String c s' =>
      if Ascii.eqb c sep then "" :: split sep s'
      else match split sep s' with
           | tok :: toks => String c tok :: toks
           | [] => [String c ""]
           end
  end.

(** [sub in s] *)
Fixpoint contains (sub s : string) : bool :=
  if String.prefix sub s then true
  else match s with
       | "" => false
       | String _ s' => contains sub s'
       end.

(** Truth value of an [Optional[str]]: [None] and the empty string are
    false. *)
Definition truthy (r : option string) : bool :=
  match r with
  | Some (String _ _) => true
  | _ => false
  end.

(** [s * n] *)
Fixpoint repeat (s : string) (n : nat) : string :=
  match n with
  | O => ""
  | S k => s +:+ repeat s k
  end.

(** [range(n, 0, -1)] *)
Fixpoint range_down (n : nat) : list nat :=
  match n with
  | O => []
  | S k => S k :: range_down k
  end.

End Py.

(** The line feed and the double quote, which a literal cannot hold. *)
Definition LF : string := String (Ascii.ascii_of_nat 10) "".
Definition DQ : string := String (Ascii.ascii_of_nat 34) "".

(** An [f'''...'''] block: every line of the block is preceded by a line
    feed (the first one follows the opening quotes). *)
Definition block (lines : list string) : string :=
  foldr (λ l acc, LF +:+ l +:+ acc) "" lines.

(** ** Exceptions, events and the world *)

Inductive exn :=
| CalledProcessError (stderr : string)
| KeyboardInterrupt
| SystemExit (code : Z)
| OSError (msg : string)
| UnicodeDecodeError (msg : string).

(** [isinstance(e, Exception)]: [KeyboardInterrupt] and [SystemExit] derive
    from [BaseException] only. *)
Definition is_Exception (e : exn) : bool :=
  match e with
  | CalledProcessError _ | OSError _ | UnicodeDecodeError _ => true
  | KeyboardInterrupt | SystemExit _ => false
  end.

(** [str(e)] for the exceptions an [except Exception as e] can bind.  The
    [CalledProcessError] case is never reached: [run_applescript], the only
    caller of [subprocess.run], handles that exception itself. *)
Definition str_exn (e : exn) : string :=
  match e with
  | OSError msg | UnicodeDecodeError msg => msg
  | CalledProcessError _ => "Command returned non-zero exit status."
  | KeyboardInterrupt => ""
  | SystemExit c => pretty c
  end.

Inductive event :=
| Print (text : string)          (* print(text) *)
| Osascript (script : string)    (* subprocess.run(["osascript", "-e", script], ...) *)
| Sleep (ms : N).                (* time.sleep(ms / 1000) *)

(** What one [subprocess.run(..., check=True)] can do. *)
Inductive proc :=
| Exit0 (stdout : string)
| NonZero (stderr : string)      (* raises CalledProcessError *)
| Interrupted                    (* Ctrl-C while waiting: KeyboardInterrupt *)
| Unavailable (msg : string)     (* the interpreter cannot be started: OSError *)
| Undecodable (msg : string).    (* text=True cannot decode the output: UnicodeDecodeError *)

Record world := World {
  osascript : list event → string → proc;
  sigint : list event → bool     (* Ctrl-C during the sleep that follows this history *)
}.

Inductive outcome (A : Type) :=
| Ok (a : A)
| Raised (e : exn).
Arguments Ok {A} a.
Arguments Raised {A} e.

(** A computation reads the history and answers with its outcome and the
    events it appended. *)
Definition M (A : Type) : Type := list event → outcome A * list event.

Definition ret {A} (a : A) : M A := λ _, (Ok a, []).

Definition bind {A B} (m : M A) (k : A → M B) : M B := λ h,
  match m h with
  | (Ok a, es) => let '(r, es') := k a (h ++ es) in (r, es ++ es')
  | (Raised e, es) => (Raised e, es)
  end.

Definition raise {A} (e : exn) : M A := λ _, (Raised e, []).

(** [try: body  except <those e with handler e = Some k>: k] *)
Definition try_except {A} (body : M A) (handler : exn → option (M A)) : M A := λ h,
  match body h with
  | (Ok a, es) => (Ok a, es)
  | (Raised e, es) =>
      match handler e with
      | Some k => let '(r, es') := k (h ++ es) in (r, es ++ es')
      | None => (Raised e, es)
      end
  end.

Global Instance M_ret : MRet M := @ret.
Global Instance M_bind : MBind M := λ A B k m, bind m k.

(** [for x in xs: body x] *)
Fixpoint for_each {A} (xs : list A) (body : A → M unit) : M unit :=
  match xs with
  | [] => ret tt
  | x :: xs' => body x ;; for_each xs' body
  end.

(** A [for] loop that updates a local variable [acc]. *)
Fixpoint for_acc {A S} (xs : list A) (acc : S) (body : A → S → M S) : M S :=
  match xs with
  | [] => ret acc
  | x :: xs' => acc' ← body x acc; for_acc xs' acc' body
  end.

(** ** workspace_manager.py *)

Definition EXCLUDED_APPS : gset string :=
  {[ "Terminal"; "iTerm2"; "iTerm"; "Finder"; "SystemUIServer" ]}.
Definition COUNTDOWN_SECONDS : nat := 3.

Definition get_applescript_list_running_apps : string :=
  "tell application " +:+ DQ +:+ "System Events" +:+ DQ +:+
  " to get name of every application process whose background only is false".

Definition get_applescript_check_app_exists (app_name : string) : string :=
  block [
    "    try";
    "        tell application " +:+ DQ +:+ "Finder" +:+ DQ +:+
      " to get application file id of application " +:+ DQ +:+ app_name +:+ DQ;
    "        return " +:+ DQ +:+ "found" +:+ DQ;
    "    on error";
    "        return " +:+ DQ +:+ "not found" +:+ DQ;
    "    end try";
    "    "
  ].

Definition get_applescript_maximize_window (process_name : string) : string :=
  block [
    "    tell application " +:+ DQ +:+ "System Events" +:+ DQ;
    "        tell process " +:+ DQ +:+ process_name +:+ DQ;
    "            set frontmost to true";
    "            delay 1";
    "            try";
    "                if exists window 1 then";
    "                    tell window 1";
    "                        -- Try fullscreen first (true maximization)";
    "                        try";
    "                            set value of attribute " +:+ DQ +:+ "AXFullScreen" +:+ DQ +:+ " to true";
    "                        on error";
    "                            -- Fallback: maximize to screen bounds";
    "                            tell application " +:+ DQ +:+ "Finder" +:+ DQ;
    "                                set screenBounds to bounds of window of desktop";
    "                                set screenWidth to item 3 of screenBounds";
    "                                set screenHeight to item 4 of screenBounds";
    "                            end tell";
    "                            set position to {0, 0}";
    "                            set size to {screenWidth, screenHeight}";
    "                        end try";
    "                    end tell";
    "                end if";
    "            on error errMsg";
    "                -- Last resort: try to zoom the window";
    "                try";
    "                    tell window 1";
    "                        set value of attribute " +:+ DQ +:+ "AXZoomButton" +:+ DQ +:+ " to true";
    "                    end tell";
    "                end try";
    "            end try";
    "        end tell";
    "    end tell";
    "    "
  ].

(** The two scripts written inline at their call sites. *)
Definition quit_script (app : string) : string :=
  "tell application " +:+ DQ +:+ app +:+ DQ +:+ " to quit".
Definition activate_script (app_name : string) : string :=
  "tell application " +:+ DQ +:+ app_name +:+ DQ +:+ " to activate".

Section Program.
Context (w : world).

Definition print (text : string) : M unit := λ _, (Ok tt, [Print text]).

Definition sleep (ms : N) : M unit := λ h,
  (if sigint w h then Raised KeyboardInterrupt else Ok tt, [Sleep ms]).

Definition sys_exit {A} (code : Z) : M A := raise (SystemExit code).

(** [subprocess.run(["osascript", "-e", script], capture_output=True,
    text=True, check=True).stdout] *)
Definition subprocess_run (script : string) : M string := λ h,
  (match osascript w h script with
   | Exit0 out => Ok out
   | NonZero err => Raised (CalledProcessError err)
   | Interrupted => Raised KeyboardInterrupt
   | Unavailable msg => Raised (OSError msg)
   | Undecodable msg => Raised (UnicodeDecodeError msg)
   end, [Osascript script]).

Definition log_info (message : string) : M unit := print ("  " +:+ message).
Definition log_success (message : string) : M unit := print ("  ✓ " +:+ message).
Definition log_error (message : string) : M unit := print ("  ✗ " +:+ message).

Definition run_applescript (script : string) : M (option string) :=
  try_except
    (stdout ← subprocess_run script; ret (Some (Py.strip stdout)))
    (λ e, match e with
          | CalledProcessError stderr =>
              Some (log_error ("AppleScript error: " +:+ stderr) ;; ret None)
          | _ => None
          end).

Definition get_running_gui_apps : M (list string) :=
  let script := get_applescript_list_running_apps in
  result ← run_applescript script;
  match result with
  | Some (String _ _ as result) =>
      let apps := Py.strip <$> Py.split ","%char result in
      ret apps
  | _ => ret []
  end.

(** Lines 166-167: one step of the countdown. *)
Definition tick (i : nat) : M unit :=
  print (pretty i +:+ "...") ;;
  sleep 1000.

(** Lines 164-170: the countdown, a Ctrl-C during it ends the process. *)
Definition countdown : M unit :=
  try_except
    (for_each (Py.range_down COUNTDOWN_SECONDS) tick)
    (λ e, match e with
          | KeyboardInterrupt =>
              Some (print (LF +:+ LF +:+ "Cancelled by user.") ;; sys_exit 0)
          | _ => None
          end).

(** Lines 174-180: the body of the closing loop. *)
Definition close_app (app : string) : M unit :=
  try_except
    (let script := quit_script app in
     run_applescript script ;;
     log_success ("Closed " +:+ app) ;;
     sleep 200)
    (λ e, if is_Exception e
          then Some (log_error ("Failed to close " +:+ app +:+ ": " +:+ str_exn e))
          else None).

Definition close_all_gui_apps (excluded_apps : option (gset string)) : M unit :=
  let excluded_apps := default EXCLUDED_APPS excluded_apps in
  print "Getting list of running GUI applications..." ;;
  apps ← get_running_gui_apps;
  let apps_to_close := filter (λ app, app ∉ excluded_apps) apps in
  match apps_to_close with
  | [] => print "No GUI applications to close."
  | _ =>
      print (LF +:+ "Found " +:+ pretty (length apps_to_close) +:+ " applications to close:") ;;
      for_each apps_to_close (λ app, log_info ("- " +:+ app)) ;;
      print (LF +:+ "Starting countdown: " +:+ pretty COUNTDOWN_SECONDS +:+
             " seconds to cancel (Ctrl+C)...") ;;
      countdown ;;
      print (LF +:+ "Closing applications...") ;;
      for_each apps_to_close close_app ;;
      sleep 1000 ;;
      print (LF +:+ "All applications closed.")
  end.

Definition maximize_window (app_name : string) (process_name : option string) : M unit :=
  let process_name := default app_name process_name in
  let script := get_applescript_maximize_window process_name in
  run_applescript script ;; ret tt.

(** Lines 214-221: the body of the checking loop; [installed_apps] is the
    list it appends to. *)
Definition check_app (spec : string * string) (installed_apps : list (string * string))
  : M (list (string * string)) :=
  let '(app_name, process_name) := spec in
  let check_script := get_applescript_check_app_exists app_name in
  result ← run_applescript check_script;
  if Py.truthy result && Py.contains "found" (default "" result)
  then log_success (app_name +:+ " found") ;;
       ret (installed_apps ++ [(app_name, process_name)])
  else log_error (app_name +:+ " not found (skipping)") ;;
       ret installed_apps.

(** Lines 226-240: the body of the opening loop. *)
Definition open_app (spec : string * string) : M unit :=
  let '(app_name, process_name) := spec in
  try_except
    (print (LF +:+ "  Opening " +:+ app_name +:+ "...") ;;
     (let script := activate_script app_name in
      run_applescript script) ;;
     sleep 2000 ;;
     print ("  Maximizing " +:+ app_name +:+ "...") ;;
     maximize_window app_name (Some process_name) ;;
     log_success (app_name +:+ " ready") ;;
     sleep 500)
    (λ e, if is_Exception e
          then Some (log_error ("Failed to open/maximize " +:+ app_name +:+ ": " +:+ str_exn e))
          else None).

Definition open_and_maximize_apps (apps_to_open : list (string * string)) : M unit :=
  print (LF +:+ "Checking installed applications...") ;;
  installed_apps ← for_acc apps_to_open [] check_app;
  print (LF +:+ "Opening and maximizing applications...") ;;
  for_each installed_apps open_app ;;
  print (LF +:+ "✓ Workflow complete! All applications opened and maximized.").

(** ** chrome_flow.py *)

Definition APPS_TO_OPEN : list (string * string) :=
  [("Google Chrome", "Google Chrome")].

Definition main : M unit :=
  print (Py.repeat "=" 60) ;;
  print "Chrome-Only Workflow" ;;
  print (Py.repeat "=" 60) ;;
  print "" ;;
  close_all_gui_apps None ;;
  open_and_maximize_apps APPS_TO_OPEN ;;
  print (LF +:+ "Done!").

End Program.

(** What the interpreter reports for the way a run ended. *)
Definition exit_status {A} (r : outcome A) : Z :=
  match r with
  | Ok _ => 0
  | Raised (SystemExit code) => code
  | Raised KeyboardInterrupt => 130
  | Raised _ => 1
  end.

(** ** The generated AppleScript

    The two multi-line scripts carry control flow of their own ([try],
    [on error], [if exists]).  They are embedded as functions over a
    [desktop], which says which commands raise an error when they are sent. *)

Module AppleScript.

Inductive command :=
| GetApplicationFileId   (* tell application "Finder" to get application file id of ... *)
| SetFrontmost           (* set frontmost to true *)
| Delay                  (* delay 1 *)
| ExistsWindow           (* exists window 1 *)
| SetFullScreen          (* set value of attribute "AXFullScreen" to true *)
| GetScreenBounds        (* the tell application "Finder" block, lines 102-106 *)
| SetPosition            (* set position to {0, 0} *)
| SetSize                (* set size to {screenWidth, screenHeight} *)
| SetZoomButton.         (* set value of attribute "AXZoomButton" to true *)

Record desktop := Desktop {
  fails : command → bool;    (* the command raises an error *)
  has_window : bool          (* what [exists window 1] answers when it does not fail *)
}.

(** A script run: its result ([None] when an error escapes the script) and
    the commands that were sent, in order. *)
Definition run (A : Type) : Type := option A * list command.

Definition value {A} (a : A) : run A := (Some a, []).

Definition seq {A B} (m : run A) (k : A → run B) : run B :=
  match m with
  | (Some a, cs) => let '(r, cs') := k a in (r, cs ++ cs')
  | (None, cs) => (None, cs)
  end.

(** [try body on error handler end try] *)
Definition try_on_error {A} (body handler : run A) : run A :=
  match body with
  | (Some a, cs) => (Some a, cs)
  | (None, cs) => let '(r, cs') := handler in (r, cs ++ cs')
  end.

Section Scripts.
Context (d : desktop).

Definition send (c : command) : run unit :=
  (if fails d c then None else Some tt, [c]).

Definition exists_window : run bool :=
  seq (send ExistsWindow) (λ _, value (has_window d)).

(** The script of [get_applescript_check_app_exists]. *)
Definition check_script : run string :=
  try_on_error
    (seq (send GetApplicationFileId) (λ _, value "found"))
    (value "not found").

(** The script of [get_applescript_maximize_window]. *)
Definition maximize_script : run unit :=
  seq (send SetFrontmost) (λ _,
  seq (send Delay) (λ _,
  try_on_error
    (seq exists_window (λ window1,
       if window1 then
         try_on_error
           (send SetFullScreen)
           (seq (send GetScreenBounds) (λ _,
            seq (send SetPosition) (λ _,
            send SetSize)))
       else value tt))
    (try_on_error (send SetZoomButton) (value tt)))).

End Scripts.

(** The three ways of making the window large. *)
Inductive strategy := Fullscreen | Resize | Zoom.

Global Instance strategy_eq_dec : EqDecision strategy.
Proof. solve_decision. Defined.

(** The command that opens each strategy. *)
Definition strategy_of (c : command) : option strategy :=
  match c with
  | SetFullScreen => Some Fullscreen
  | GetScreenBounds => Some Resize
  | SetZoomButton => Some Zoom
  | _ => None
  end.

(** The strategies a run attempted, in the order it attempted them. *)
Definition attempted {A} (r : run A) : list strategy := omap strategy_of r.2.

(** A strategy errors when one of its commands does. *)
Definition errors (d : desktop) (s : strategy) : bool :=
  match s with
  | Fullscreen => fails d SetFullScreen
  | Resize => fails d GetScreenBounds || fails d SetPosition || fails d SetSize
  | Zoom => fails d SetZoomButton
  end.

(** [osascript -e script]: exit status 0 with the result on standard output
    when the script ends, a non-zero status when an error escapes it. *)
Definition exit_of {A} (r : run A) (reply : proc) : Prop :=
  match r.1, reply with
  | Some _, Exit0 _ | None, NonZero _ => True
  | _, _ => False
  end.

(** What [osascript] gives for a script that returns text: the text and a
    line feed on standard output. *)
Definition osascript_text (r : run string) : proc :=
  match r.1 with
  | Some v => Exit0 (v +:+ LF)
  | None => NonZero "execution error"
  end.

(** [previous s]: the strategy the script tries before it falls back on [s]. *)
Definition previous (s : strategy) : option strategy :=
  match s with
  | Fullscreen => None
  | Resize => Some Fullscreen
  | Zoom => Some Resize
  end.

(** The chain read literally: a fallback is attempted only if the strategy
    before it was attempted and errored. *)
Definition fallback_only_after_error (d : desktop) : Prop :=
  ∀ s p, s ∈ attempted (maximize_script d) → previous s = Some p →
    p ∈ attempted (maximize_script d) ∧ errors d p = true.

End AppleScript.

(** ** Vocabulary of the statements *)

(** The characters of a string. *)
Definition chars (s : string) : list ascii := String.list_ascii_of_string s.

(** The number of commas in a string. *)
Definition commas (s : string) : nat :=
  length (filter (λ c, c = ","%char) (chars s)).

(** The scripts a trace ran, in order. *)
Definition osascripts (es : list event) : list string :=
  omap (λ e, match e with Osascript s => Some s | _ => None end) es.

(** No Ctrl-C arrives, neither during a sleep nor during an [osascript] call. *)
Definition uninterrupted (w : world) : Prop :=
  (∀ h, sigint w h = false) ∧ (∀ h script, osascript w h script ≠ Interrupted).

(** What [close_all_gui_apps] prints between the enumeration and the
    countdown, for the list [apps_to_close]. *)
Definition announcement (apps_to_close : list string) : list event :=
  Print (LF +:+ "Found " +:+ pretty (length apps_to_close) +:+ " applications to close:")
  :: ((λ app, Print ("  - " +:+ app)) <$> apps_to_close)
  ++ [Print (LF +:+ "Starting countdown: " +:+ pretty COUNTDOWN_SECONDS +:+
             " seconds to cancel (Ctrl+C)...")].

(** The events of a countdown from [n] that runs to its end. *)
Fixpoint countdown_ticks (n : nat) : list event :=
  match n with
  | O => []
  | S k => Print (pretty (S k) +:+ "...") :: Sleep 1000 :: countdown_ticks k
  end.

(** The moments at which a countdown from [n] sleeps: each is the list of the
    countdown's events up to that sleep. *)
Fixpoint sleep_points (n : nat) : list (list event) :=
  match n with
  | O => []
  | S k =>
      let line := Print (pretty (S k) +:+ "...") in
      [line] :: ((λ p, line :: Sleep 1000 :: p) <$> sleep_points k)
  end.

(** The events of one round of the closing loop, by the way the quit request
    for [app] ended. *)
Definition close_events (app : string) (reply : proc) : list event :=
  Osascript (quit_script app) ::
  match reply with
  | Exit0 _ => [Print ("  ✓ Closed " +:+ app); Sleep 200]
  | NonZero stderr =>
      [Print ("  ✗ AppleScript error: " +:+ stderr);
       Print ("  ✓ Closed " +:+ app); Sleep 200]
  | Unavailable msg | Undecodable msg =>
      [Print ("  ✗ Failed to close " +:+ app +:+ ": " +:+ msg)]
  | Interrupted => []
  end.

(** The world's answers to the quit requests of the closing loop over [apps]
    that starts after history [h]. *)
Fixpoint quit_replies (w : world) (apps : list string) (h : list event) : list proc :=
  match apps with
  | [] => []
  | app :: apps' =>
      let reply := osascript w h (quit_script app) in
      reply :: quit_replies w apps' (h ++ close_events app reply)
  end.

(** A trace without [time.sleep]. *)
Definition sleepless (es : list event) : Prop :=
  Forall (λ e, match e with Sleep _ => False | _ => True end) es.

(** A desktop on which the three named applications run and every request
    succeeds; nobody presses Ctrl-C. *)
Definition three_apps : world :=
  World (λ _ script,
           if decide (script = get_applescript_list_running_apps)
           then Exit0 ("Chrome, Terminal, Notes" +:+ LF) else Exit0 "")
        (λ _, false).

(** The same desktop with the user holding Ctrl-C. *)
Definition three_apps_ctrl_c : world :=
  World (osascript three_apps) (λ _, true).

(** A desktop on which only excluded applications run. *)
Definition only_excluded : world :=
  World (λ _ _, Exit0 ("Finder, Terminal" +:+ LF)) (λ _, false).

(** [osascript] can always be started and its output decoded. *)
Definition available (w : world) : Prop :=
  ∀ h script msg,
    osascript w h script ≠ Unavailable msg ∧ osascript w h script ≠ Undecodable msg.

(** The test of line 217 on the answer to a check: the call exited with
    status 0 and its stripped output is not empty and has "found" in it. *)
Definition confirmed (reply : proc) : bool :=
  match reply with
  | Exit0 stdout =>
      Py.truthy (Some (Py.strip stdout)) && Py.contains "found" (Py.strip stdout)
  | _ => false
  end.

(** The events of one round of the checking loop, by the answer to the check. *)
Definition check_events (spec : string * string) (reply : proc) : list event :=
  Osascript (get_applescript_check_app_exists spec.1) ::
  match reply with
  | Exit0 _ =>
      if confirmed reply then [Print ("  ✓ " +:+ spec.1 +:+ " found")]
      else [Print ("  ✗ " +:+ spec.1 +:+ " not found (skipping)")]
  | NonZero stderr =>
      [Print ("  ✗ AppleScript error: " +:+ stderr);
       Print ("  ✗ " +:+ spec.1 +:+ " not found (skipping)")]
  | Interrupted | Unavailable _ | Undecodable _ => []
  end.

(** The specs the checking loop keeps, given the answers to their checks. *)
Fixpoint installed_among (specs : list (string * string)) (replies : list proc)
  : list (string * string) :=
  match specs, replies with
  | spec :: specs', reply :: replies' =>
      if confirmed reply then spec :: installed_among specs' replies'
      else installed_among specs' replies'
  | _, _ => []
  end.

Definition is_check_script (script : string) : Prop :=
  ∃ app_name, script = get_applescript_check_app_exists app_name.

(** [script] activates or maximizes one of [specs]. *)
Definition opens_one_of (specs : list (string * string)) (script : string) : Prop :=
  ∃ spec, spec ∈ specs ∧
    (script = activate_script spec.1 ∨ script = get_applescript_maximize_window spec.2).

(** A desktop on which the Finder knows no Google Chrome. *)
Definition chrome_missing_desktop : AppleScript.desktop :=
  AppleScript.Desktop
    (λ c, match c with AppleScript.GetApplicationFileId => true | _ => false end) false.

(** The world of that desktop: the check script gets what the script returns
    there, every other script succeeds silently. *)
Definition chrome_missing : world :=
  World (λ _ script,
           if decide (script = get_applescript_check_app_exists "Google Chrome")
           then AppleScript.osascript_text (AppleScript.check_script chrome_missing_desktop)
           else Exit0 "")
        (λ _, false).

(** A desktop on which the test [exists window 1] raises an error and every
    other command works. *)
Definition window_test_fails : AppleScript.desktop :=
  AppleScript.Desktop
    (λ c, match c with AppleScript.ExistsWindow => true | _ => false end) true.

(** A desktop on which the window exists and the three strategies all fail. *)
Definition nothing_works : AppleScript.desktop :=
  AppleScript.Desktop
    (λ c, match c with
          | AppleScript.SetFullScreen | AppleScript.GetScreenBounds
          | AppleScript.SetZoomButton => true
          | _ => false
          end) true.

(** A world in which every script ends with exit status 0 and no output. *)
Definition quiet : world := World (λ _ _, Exit0 "") (λ _, false).


(** ** Vocabulary of the further statements *)

(** The string begins, resp. ends, with a character [str.strip] removes. *)
Definition starts_with_space (s : string) : bool :=
  match s with
  | String c _ => Py.isspace c
  | "" => false
  end.
Definition ends_with_space (s : string) : bool := starts_with_space (String.rev s).

(** The lines a trace printed and the time it slept, in milliseconds. *)
Definition printed (es : list event) : list string :=
  omap (λ e, match e with Print text => Some text | _ => None end) es.
Definition slept (es : list event) : N :=
  foldr (λ e total, match e with Sleep ms => (ms + total)%N | _ => total end) 0%N es.

(** The line [run_applescript] logs for an answer, if any. *)
Definition error_line (reply : proc) : list event :=
  match reply with
  | NonZero stderr => [Print ("  ✗ AppleScript error: " +:+ stderr)]
  | _ => []
  end.

(** The events of one round of the opening loop when no Ctrl-C arrives, by the
    answers to the activation and to the maximize script. *)
Definition open_events (spec : string * string) (activation maximization : proc)
  : list event :=
  let failed msg :=
    Print ("  ✗ Failed to open/maximize " +:+ spec.1 +:+ ": " +:+ msg) in
  Print (LF +:+ "  Opening " +:+ spec.1 +:+ "...") ::
  Osascript (activate_script spec.1) ::
  match activation with
  | Interrupted => []
  | Unavailable msg | Undecodable msg => [failed msg]
  | _ =>
      error_line activation ++
      Sleep 2000 :: Print ("  Maximizing " +:+ spec.1 +:+ "...") ::
      Osascript (get_applescript_maximize_window spec.2) ::
      match maximization with
      | Interrupted => []
      | Unavailable msg | Undecodable msg => [failed msg]
      | _ => error_line maximization ++
             [Print ("  ✓ " +:+ spec.1 +:+ " ready"); Sleep 500]
      end
  end.

(** The four lines [main] prints first. *)
Definition banner : list event :=
  [Print (Py.repeat "=" 60); Print "Chrome-Only Workflow"; Print (Py.repeat "=" 60);
   Print ""].

(** A script of the opening phase of [main]. *)
Definition chrome_script (script : string) : Prop :=
  script = get_applescript_check_app_exists "Google Chrome"
  ∨ script = activate_script "Google Chrome"
  ∨ script = get_applescript_maximize_window "Google Chrome".

(** A world in which [osascript] prints padded output. *)
Definition padded : world :=
  World (λ _ _, Exit0 ("  Notes ,  Mail" +:+ LF)) (λ _, false).

(** The three applications again, with a Ctrl-C during the first quit
    request. *)
Definition three_apps_late_ctrl_c : world :=
  World (λ _ script,
           if decide (script = get_applescript_list_running_apps)
           then Exit0 ("Chrome, Terminal, Notes" +:+ LF)
           else if decide (script = quit_script "Chrome") then Interrupted
           else Exit0 "")
        (λ _, false).

(** A desktop on which the process cannot be brought to the front, and a
    world that reports the error. *)
Definition no_process : AppleScript.desktop :=
  AppleScript.Desktop
    (λ c, match c with AppleScript.SetFrontmost => true | _ => false end) false.
Definition failing : world := World (λ _ _, NonZero "execution error") (λ _, false).

(** A Ctrl-C ends the round of the closing loop for [app] that starts after
    history [h]: it arrives during the quit request or during the pause that
    follows it. *)
Definition ctrl_c_in_round (w : world) (app : string) (h : list event) : bool :=
  match osascript w h (quit_script app) with
  | Interrupted => true
  | Unavailable _ | Undecodable _ => false
  | reply => sigint w (h ++ removelast (close_events app reply))
  end.

(** ** Vocabulary of the statements on the loops *)

(** The exception [run_applescript] lets escape for an answer, if any: it
    absorbs the non-zero exit only. *)
Definition escapes (reply : proc) : option exn :=
  match reply with
  | Exit0 _ | NonZero _ => None
  | Interrupted => Some KeyboardInterrupt
  | Unavailable msg => Some (OSError msg)
  | Undecodable msg => Some (UnicodeDecodeError msg)
  end.

(** The world's answers to the checks of the checking loop over [specs] that
    starts after history [h]; the series ends with the first answer that
    raises. *)
Fixpoint check_replies (w : world) (specs : list (string * string)) (h : list event)
  : list proc :=
  match specs with
  | [] => []
  | spec :: specs' =>
      let reply := osascript w h (get_applescript_check_app_exists spec.1) in
      reply :: match escapes reply with
               | None => check_replies w specs' (h ++ check_events spec reply)
               | Some _ => []
               end
  end.

(** The exception that ended a series of answers, if one did. *)
Definition stopped (replies : list proc) : option exn := last replies ≫= escapes.

(** [core] is [text] without the whitespace around it. *)
Definition all_space (s : string) : Prop := Forall (λ c, Py.isspace c = true) (chars s).
Definition trimmed (text core : string) : Prop :=
  (∃ l r, text = l +:+ core +:+ r ∧ all_space l ∧ all_space r)
  ∧ starts_with_space core = false ∧ ends_with_space core = false.

(** The scripts of one round of the opening loop: the activation, and the
    maximize script unless the round was cut short. *)
Definition opening_scripts (spec : string * string) (round : list string) : Prop :=
  round = [activate_script spec.1]
  ∨ round = [activate_script spec.1; get_applescript_maximize_window spec.2].

(** One round of the opening loop after history [h], with the world's answers
    to its two calls, and the rounds of the loop over [specs]. *)
Definition open_round (w : world) (spec : string * string) (h : list event) : list event :=
  let activation :=
    osascript w (h ++ [Print (LF +:+ "  Opening " +:+ spec.1 +:+ "...")])
      (activate_script spec.1) in
  let maximization :=
    osascript w (h ++ Print (LF +:+ "  Opening " +:+ spec.1 +:+ "...") ::
                      Osascript (activate_script spec.1) ::
                      error_line activation ++
                      [Sleep 2000; Print ("  Maximizing " +:+ spec.1 +:+ "...")])
      (get_applescript_maximize_window spec.2) in
  open_events spec activation maximization.
Fixpoint open_rounds (w : world) (specs : list (string * string)) (h : list event)
  : list event :=
  match specs with
  | [] => []
  | spec :: specs' =>
      open_round w spec h ++ open_rounds w specs' (h ++ open_round w spec h)
  end.

(** The three applications again; Chrome answers the quit request with an
    error. *)
Definition chrome_refuses : world :=
  World (λ _ script,
           if decide (script = get_applescript_list_running_apps)
           then Exit0 ("Chrome, Terminal, Notes" +:+ LF)
           else if decide (script = quit_script "Chrome")
                then NonZero "execution error: User canceled. (-128)"
                else Exit0 "")
        (λ _, false).

(** A machine without [osascript]. *)
Definition no_osascript : world :=
  World (λ _ _, Unavailable "No such file or directory: 'osascript'") (λ _, false).

(** Google Chrome is installed but its activation fails. *)
Definition chrome_will_not_start : world :=
  World (λ _ script,
           if decide (script = get_applescript_check_app_exists "Google Chrome")
           then Exit0 ("found" +:+ LF)
           else if decide (script = activate_script "Google Chrome")
                then NonZero "execution error: Application is not running. (-600)"
                else Exit0 "")
        (λ _, false).

(** The two commands before the [try] of the maximize script went through. *)
Definition in_front (d : AppleScript.desktop) : bool :=
  negb (AppleScript.fails d AppleScript.SetFrontmost)
  && negb (AppleScript.fails d AppleScript.Delay).

(** * Properties *)

(** ** Strings *)

Lemma chars_app a b : chars (a +:+ b) = chars a ++ chars b.
Proof. unfold chars. induction a as [|c a IH]; simpl; [done | by rewrite IH]. Qed.

Lemma chars_inj a b : chars a = chars b → a = b.
Proof.
  unfold chars. intros H. rewrite <- (String.string_of_list_ascii_of_string a),
    <- (String.string_of_list_ascii_of_string b). by rewrite H.
Qed.

Lemma chars_rev_app a b : chars (String.rev_app a b) = reverse (chars a) ++ chars b.
Proof.
  unfold chars. revert b. induction a as [|c a IH]; intros b; simpl; [done|].
  rewrite IH. simpl. by rewrite reverse_cons, <- app_assoc.
Qed.

Lemma chars_rev a : chars (String.rev a) = reverse (chars a).
Proof. unfold String.rev. rewrite chars_rev_app. unfold chars. by rewrite app_nil_r. Qed.

Lemma app_inj_suffix a b s : a +:+ s = b +:+ s → a = b.
Proof.
  intros H. apply chars_inj. apply (f_equal chars) in H.
  rewrite !chars_app in H. by apply app_inv_tail in H.
Qed.

Lemma quit_script_inj a b : quit_script a = quit_script b → a = b.
Proof.
  unfold quit_script. intros H.
  do 2 apply String.app_inj in H. by apply app_inj_suffix in H.
Qed.

Lemma quit_script_not_list a : quit_script a ≠ get_applescript_list_running_apps.
Proof.
  intros H. apply (f_equal (λ s, last (chars s))) in H.
  unfold quit_script in H. rewrite !chars_app in H.
  rewrite !app_assoc in H. change (chars " to quit") with (chars " to qui" ++ [ "t"%char ]) in H.
  rewrite !app_assoc, last_snoc in H. vm_compute in H. discriminate.
Qed.

(** ** The monad *)

Lemma bind_run {A B} (m : M A) (k : A → M B) h :
  (m ≫= k) h =
  match m h with
  | (Ok a, es) => let '(r, es') := k a (h ++ es) in (r, es ++ es')
  | (Raised e, es) => (Raised e, es)
  end.
Proof. reflexivity. Qed.

(** ** [run_applescript] *)

Lemma run_applescript_run w script h :
  run_applescript w script h =
  match osascript w h script with
  | Exit0 stdout => (Ok (Some (Py.strip stdout)), [Osascript script])
  | NonZero stderr =>
      (Ok None, [Osascript script; Print ("  ✗ AppleScript error: " +:+ stderr)])
  | Interrupted => (Raised KeyboardInterrupt, [Osascript script])
  | Unavailable msg => (Raised (OSError msg), [Osascript script])
  | Undecodable msg => (Raised (UnicodeDecodeError msg), [Osascript script])
  end.
Proof.
  unfold run_applescript, try_except. rewrite bind_run. unfold subprocess_run.
  destruct (osascript w h script); reflexivity.
Qed.

Lemma get_running_gui_apps_run w h :
  get_running_gui_apps w h =
  match osascript w h get_applescript_list_running_apps with
  | Exit0 stdout =>
      (Ok (if decide (Py.strip stdout = "") then []
           else Py.strip <$> Py.split "," (Py.strip stdout)),
       [Osascript get_applescript_list_running_apps])
  | NonZero stderr =>
      (Ok [], [Osascript get_applescript_list_running_apps;
               Print ("  ✗ AppleScript error: " +:+ stderr)])
  | Interrupted => (Raised KeyboardInterrupt, [Osascript get_applescript_list_running_apps])
  | Unavailable msg => (Raised (OSError msg), [Osascript get_applescript_list_running_apps])
  | Undecodable msg =>
      (Raised (UnicodeDecodeError msg), [Osascript get_applescript_list_running_apps])
  end.
Proof.
  unfold get_running_gui_apps. rewrite bind_run, run_applescript_run.
  destruct (osascript w h _) as [stdout| | | |]; try reflexivity.
  destruct (Py.strip stdout); reflexivity.
Qed.

(** ** [str.split] and [str.strip] *)

Lemma commas_cons c s :
  commas (String c s) = if Ascii.eqb c "," then S (commas s) else commas s.
Proof.
  unfold commas, chars. simpl. rewrite filter_cons.
  case_decide as Hc; destruct (Ascii.eqb_spec c ","%char); done.
Qed.

Lemma split_length s : length (Py.split "," s) = S (commas s).
Proof.
  induction s as [|c s IH]; [done|].
  rewrite commas_cons. simpl. destruct (Ascii.eqb c ","); simpl; [by rewrite IH|].
  destruct (Py.split "," s); simpl in *; [discriminate | done].
Qed.

Lemma split_no_comma s : Forall (λ tok, commas tok = 0) (Py.split "," s).
Proof.
  induction s as [|c s IH]; simpl; [by repeat constructor|].
  destruct (Ascii.eqb c ",") eqn:Hc; [by constructor|].
  destruct (Py.split "," s) as [|tok toks].
  - repeat constructor. by rewrite commas_cons, Hc.
  - inversion_clear IH. constructor; [|done]. by rewrite commas_cons, Hc.
Qed.

Lemma commas_lstrip s : commas (Py.lstrip s) ≤ commas s.
Proof.
  induction s as [|c s IH]; simpl; [done|].
  destruct (Py.isspace c); [|done].
  rewrite commas_cons. destruct (Ascii.eqb c ","); lia.
Qed.

Lemma commas_rev s : commas (String.rev s) = commas s.
Proof. unfold commas. by rewrite chars_rev, filter_reverse, length_reverse. Qed.

Lemma commas_strip s : commas (Py.strip s) ≤ commas s.
Proof.
  unfold Py.strip, Py.rstrip. rewrite commas_rev.
  etrans; [apply commas_lstrip|]. rewrite commas_rev. apply commas_lstrip.
Qed.

(** ** [get_running_gui_apps] *)

(** C7. When the [osascript] call behind [get_running_gui_apps] exits with a
    non-zero status, the function returns the empty list without raising, and
    the only thing it adds after the call is one error line carrying the
    captured standard error. *)
Theorem get_running_gui_apps_call_failed w h stderr :
  osascript w h get_applescript_list_running_apps = NonZero stderr →
  get_running_gui_apps w h =
    (Ok [], [Osascript get_applescript_list_running_apps;
             Print ("  ✗ AppleScript error: " +:+ stderr)]).
Proof. intros H. by rewrite get_running_gui_apps_run, H. Qed.

Lemma get_running_gui_apps_call_failed_witness :
  get_running_gui_apps (World (λ _ _, NonZero "execution error") (λ _, false)) [] =
    (Ok [], [Osascript get_applescript_list_running_apps;
             Print ("  ✗ AppleScript error: " +:+ "execution error")]).
Proof. by apply get_running_gui_apps_call_failed. Defined.

(** A name with a comma in it is split. *)
Example get_running_gui_apps_comma_name :
  (get_running_gui_apps
     (World (λ _ _, Exit0 ("Finder, Acme, Inc., Notes" +:+ LF)) (λ _, false)) []).1
  = Ok ["Finder"; "Acme"; "Inc."; "Notes"].
Proof. reflexivity. Qed.

(** ** The countdown *)

Section Countdown.
Context (w : world).

Lemma tick_run i h :
  tick w i h =
    (if sigint w (h ++ [Print (pretty i +:+ "...")])
     then Raised KeyboardInterrupt else Ok tt,
     [Print (pretty i +:+ "..."); Sleep 1000]).
Proof.
  unfold tick. rewrite bind_run. simpl. unfold sleep.
  by destruct (sigint w _).
Qed.

Lemma ticks_complete n h :
  (∀ p, p ∈ sleep_points n → sigint w (h ++ p) = false) →
  for_each (Py.range_down n) (tick w) h = (Ok tt, countdown_ticks n).
Proof.
  revert h. induction n as [|n IH]; intros h Hq; [done|].
  simpl. rewrite bind_run, tick_run.
  rewrite (Hq [Print (pretty (S n) +:+ "...")]) by apply list_elem_of_here.
  rewrite IH; [done|].
  intros p Hp. rewrite <- app_assoc. apply Hq. simpl. apply list_elem_of_further.
  by apply (list_elem_of_fmap_2 (λ p, _ :: _ :: p)).
Qed.

Lemma ticks_interrupted n h p :
  p ∈ sleep_points n → sigint w (h ++ p) = true →
  ∃ p', p' ∈ sleep_points n ∧
    for_each (Py.range_down n) (tick w) h = (Raised KeyboardInterrupt, p' ++ [Sleep 1000]).
Proof.
  revert h p. induction n as [|n IH]; intros h p Hp Hsig; [by inversion Hp|].
  simpl. rewrite bind_run, tick_run.
  destruct (sigint w (h ++ [Print (pretty (S n) +:+ "...")])) eqn:Hfirst.
  { exists [Print (pretty (S n) +:+ "...")]. split; [apply list_elem_of_here|]. done. }
  simpl in Hp. apply elem_of_cons in Hp as [->|Hp]; [congruence|].
  apply list_elem_of_fmap in Hp as (q & -> & Hq).
  destruct (IH (h ++ [Print (pretty (S n) +:+ "..."); Sleep 1000]) q Hq) as (q' & Hq' & Hrun).
  { by rewrite <- app_assoc. }
  rewrite Hrun. exists (Print (pretty (S n) +:+ "...") :: Sleep 1000 :: q'). split; [|done].
  simpl. apply list_elem_of_further. by apply (list_elem_of_fmap_2 (λ p, _ :: _ :: p)).
Qed.

Lemma countdown_complete h :
  (∀ p, p ∈ sleep_points COUNTDOWN_SECONDS → sigint w (h ++ p) = false) →
  countdown w h = (Ok tt, countdown_ticks COUNTDOWN_SECONDS).
Proof.
  intros Hq. unfold countdown, try_except.
  by rewrite ticks_complete.
Qed.

Lemma countdown_cancelled h p :
  p ∈ sleep_points COUNTDOWN_SECONDS → sigint w (h ++ p) = true →
  ∃ p', p' ∈ sleep_points COUNTDOWN_SECONDS ∧
    countdown w h =
      (Raised (SystemExit 0),
       p' ++ [Sleep 1000; Print (LF +:+ LF +:+ "Cancelled by user.")]).
Proof.
  intros Hp Hsig. destruct (ticks_interrupted _ _ _ Hp Hsig) as (p' & Hp' & Hrun).
  exists p'. split; [done|]. unfold countdown, try_except.
  rewrite Hrun. simpl. by rewrite <- app_assoc.
Qed.

(** The countdown ends in one of two ways only. *)
Lemma countdown_cases h :
  (countdown w h = (Ok tt, countdown_ticks COUNTDOWN_SECONDS)) ∨
  (∃ p', p' ∈ sleep_points COUNTDOWN_SECONDS ∧
     countdown w h =
       (Raised (SystemExit 0),
        p' ++ [Sleep 1000; Print (LF +:+ LF +:+ "Cancelled by user.")])).
Proof.
  destruct (decide (Forall (λ p, sigint w (h ++ p) = false)
                      (sleep_points COUNTDOWN_SECONDS))) as [Hall|Hex].
  - left. apply countdown_complete. by apply Forall_forall.
  - right. apply not_Forall_Exists in Hex; [|apply _].
    apply Exists_exists in Hex as (p & Hp & Hsig).
    apply (countdown_cancelled h p Hp). by apply not_false_is_true.
Qed.

End Countdown.

(** ** The closing loop *)

Section Closing.
Context (w : world).

Lemma close_app_run app h :
  let reply := osascript w h (quit_script app) in
  close_app w app h =
    (match reply with
     | Interrupted => Raised KeyboardInterrupt
     | Unavailable _ | Undecodable _ => Ok tt
     | _ => if sigint w (h ++ removelast (close_events app reply))
            then Raised KeyboardInterrupt else Ok tt
     end, close_events app reply).
Proof.
  unfold close_app, try_except. rewrite bind_run, run_applescript_run.
  unfold close_events.
  destruct (osascript w h (quit_script app)) as [out|err| |msg|msg]; simpl; try done.
  - unfold sleep. rewrite <- !app_assoc. simpl. by destruct (sigint w _).
  - unfold sleep. rewrite <- !app_assoc. simpl. by destruct (sigint w _).
Qed.

Lemma close_app_events app h :
  (close_app w app h).2 = close_events app (osascript w h (quit_script app)).
Proof. by rewrite close_app_run. Qed.

Lemma close_app_uninterrupted app h :
  uninterrupted w → (close_app w app h).1 = Ok tt.
Proof.
  intros [Hsig Hos]. rewrite close_app_run. simpl.
  specialize (Hos h (quit_script app)).
  destruct (osascript w h (quit_script app)); rewrite ?Hsig; done.
Qed.

Lemma osascripts_app es1 es2 : osascripts (es1 ++ es2) = osascripts es1 ++ osascripts es2.
Proof. apply omap_app. Qed.

Lemma osascripts_close_events app reply :
  osascripts (close_events app reply) = [quit_script app].
Proof. by destruct reply. Qed.

Lemma osascripts_rounds apps replies :
  length replies = length apps →
  osascripts (concat (zip_with close_events apps replies)) = quit_script <$> apps.
Proof.
  revert replies. induction apps as [|app apps IH]; intros [|r replies] Hlen;
    try discriminate; [done|].
  injection Hlen as Hlen.
  change (osascripts (close_events app r ++ concat (zip_with close_events apps replies))
          = quit_script app :: (quit_script <$> apps)).
  by rewrite osascripts_app, osascripts_close_events, IH.
Qed.

(** Whatever the world does, the loop runs round after round over a prefix
    of the list, and over all of it when it returns. *)
Lemma closing_loop_rounds apps h :
  ∃ closed replies,
    closed `prefix_of` apps ∧ length replies = length closed ∧
    (for_each apps (close_app w) h).2 = concat (zip_with close_events closed replies) ∧
    ((for_each apps (close_app w) h).1 = Ok tt → closed = apps).
Proof.
  revert h. induction apps as [|app apps IH]; intros h.
  { exists [], []. by split_and!. }
  simpl. rewrite bind_run.
  pose proof (close_app_events app h) as Hev.
  destruct (close_app w app h) as [[[]|e] es] eqn:Hone; simpl in Hev; subst es.
  - destruct (IH (h ++ close_events app (osascript w h (quit_script app))))
      as (dn & replies & Hpre & Hlen & Hes & Hok).
    destruct (for_each apps _ _) as [r es'] eqn:Hrest. simpl in *.
    exists (app :: dn), (osascript w h (quit_script app) :: replies).
    split_and!; [by apply prefix_cons|simpl; by rewrite Hlen|simpl; by rewrite Hes|].
    intros Hr. by rewrite Hok.
  - exists [app], [osascript w h (quit_script app)].
    split_and!; [by apply prefix_cons, prefix_nil|done|simpl; by rewrite app_nil_r|done].
Qed.

Lemma listing_lines_run apps h :
  for_each apps (λ app, log_info ("- " +:+ app)) h =
    (Ok tt, (λ app, Print ("  - " +:+ app)) <$> apps).
Proof.
  revert h. induction apps as [|app apps IH]; intros h; [done|].
  simpl. rewrite bind_run. simpl. by rewrite IH.
Qed.

End Closing.

(** ** [close_all_gui_apps] *)

(** Bring nested appends into one shape. *)
Ltac flatten :=
  repeat first [rewrite <- app_assoc | rewrite <- app_comm_cons
               | rewrite app_nil_r | rewrite app_nil_l].

Section CloseAll.
Context (w : world).

Local Abbreviation getting := (Print "Getting list of running GUI applications...").
Local Abbreviation closing := (Print (LF +:+ "Closing applications...")).
Local Abbreviation all_closed := (Print (LF +:+ "All applications closed.")).

(** The run of [close_all_gui_apps], laid out along its stages. *)
Lemma close_all_gui_apps_run excluded_apps h R es0 :
  get_running_gui_apps w (h ++ [getting]) = (Ok R, es0) →
  let Q := filter (λ app, app ∉ default EXCLUDED_APPS excluded_apps) R in
  close_all_gui_apps w excluded_apps h =
    match Q with
    | [] => (Ok tt, getting :: es0 ++ [Print "No GUI applications to close."])
    | _ =>
        let pre := getting :: es0 ++ announcement Q in
        match countdown w (h ++ pre) with
        | (Ok _, cd) =>
            let pre' := pre ++ cd ++ [closing] in
            match for_each Q (close_app w) (h ++ pre') with
            | (Ok _, ce) =>
                if sigint w (h ++ pre' ++ ce)
                then (Raised KeyboardInterrupt, pre' ++ ce ++ [Sleep 1000])
                else (Ok tt, pre' ++ ce ++ [Sleep 1000; all_closed])
            | (Raised e, ce) => (Raised e, pre' ++ ce)
            end
        | (Raised e, cd) => (Raised e, pre ++ cd)
        end
    end.
Proof.
  intros Hrun Q. unfold close_all_gui_apps.
  rewrite bind_run. unfold print at 1. cbv iota beta.
  rewrite bind_run, Hrun. fold Q.
  destruct Q as [|a Q'] eqn:HQ; [done|]. rewrite <- HQ. clear HQ.
  rewrite bind_run. unfold print at 1. cbv iota beta.
  rewrite bind_run, listing_lines_run.
  rewrite bind_run. unfold print at 1. cbv iota beta.
  rewrite bind_run.
  replace (((((h ++ [getting]) ++ es0) ++ _) ++ _) ++ _)
    with (h ++ getting :: es0 ++ announcement Q).
  2:{ unfold announcement. by flatten. }
  destruct (countdown w _) as [[[]|e] cd].
  2:{ unfold announcement. by flatten. }
  rewrite bind_run. unfold print at 1. cbv iota beta.
  rewrite bind_run.
  replace (((h ++ getting :: es0 ++ announcement Q) ++ cd) ++ _)
    with (h ++ (getting :: es0 ++ announcement Q) ++ cd ++ [closing]).
  2:{ by flatten. }
  destruct (for_each Q (close_app w) _) as [[[]|e] ce].
  2:{ unfold announcement. by flatten. }
  rewrite bind_run. unfold sleep at 1. cbv iota beta.
  replace ((h ++ (getting :: es0 ++ announcement Q) ++ cd ++ [closing]) ++ ce)
    with (h ++ ((getting :: es0 ++ announcement Q) ++ cd ++ [closing]) ++ ce).
  2:{ by flatten. }
  destruct (sigint w _).
  - unfold announcement. by flatten.
  - unfold announcement. by flatten.
Qed.

End CloseAll.

Section CloseAllProperties.
Context (w : world).

Local Abbreviation getting := (Print "Getting list of running GUI applications...").
Local Abbreviation closing := (Print (LF +:+ "Closing applications...")).
Local Abbreviation all_closed := (Print (LF +:+ "All applications closed.")).
Local Abbreviation cancelled := (Print (LF +:+ LF +:+ "Cancelled by user.")).

Lemma get_running_gui_apps_scripts h :
  osascripts (get_running_gui_apps w h).2 = [get_applescript_list_running_apps].
Proof. rewrite get_running_gui_apps_run. by destruct (osascript w h _). Qed.

Lemma get_running_gui_apps_sleepless h : sleepless (get_running_gui_apps w h).2.
Proof.
  rewrite get_running_gui_apps_run.
  destruct (osascript w h _); repeat constructor.
Qed.

Lemma osascripts_print text es : osascripts (Print text :: es) = osascripts es.
Proof. done. Qed.

Lemma osascripts_sleep ms es : osascripts (Sleep ms :: es) = osascripts es.
Proof. done. Qed.

Lemma osascripts_script script es :
  osascripts (Osascript script :: es) = script :: osascripts es.
Proof. done. Qed.

Lemma osascripts_nil : osascripts [] = [].
Proof. done. Qed.

Lemma osascripts_announcement apps : osascripts (announcement apps) = [].
Proof.
  unfold announcement. simpl. rewrite osascripts_app. simpl.
  rewrite app_nil_r. induction apps; [done|]. by simpl.
Qed.

Lemma osascripts_countdown_ticks n : osascripts (countdown_ticks n) = [].
Proof. induction n; [done|]. by simpl. Qed.

Lemma osascripts_sleep_point n p : p ∈ sleep_points n → osascripts p = [].
Proof.
  revert p. induction n as [|n IH]; intros p Hp; [by inversion Hp|].
  simpl in Hp. apply elem_of_cons in Hp as [->|Hp]; [done|].
  apply list_elem_of_fmap in Hp as (q & -> & Hq). simpl. by apply IH.
Qed.

Lemma osascripts_countdown h : osascripts (countdown w h).2 = [].
Proof.
  destruct (countdown_cases w h) as [Heq|(p & Hp & Heq)]; rewrite Heq; cbn [snd].
  - apply osascripts_countdown_ticks.
  - rewrite osascripts_app. by rewrite (osascripts_sleep_point _ _ Hp).
Qed.

Lemma countdown_uninterrupted h :
  uninterrupted w → countdown w h = (Ok tt, countdown_ticks COUNTDOWN_SECONDS).
Proof. intros [Hsig _]. apply countdown_complete. intros p _. apply Hsig. Qed.

Lemma closing_loop_replies apps h :
  uninterrupted w →
  for_each apps (close_app w) h =
    (Ok tt, concat (zip_with close_events apps (quit_replies w apps h))).
Proof.
  intros Hun. revert h. induction apps as [|app apps IH]; intros h; [done|].
  simpl. rewrite bind_run.
  pose proof (close_app_events w app h) as Hev.
  pose proof (close_app_uninterrupted w app h Hun) as Hok.
  destruct (close_app w app h) as [r es]; simpl in Hev, Hok; subst r es.
  by rewrite IH.
Qed.

(** The scripts [close_all_gui_apps] runs: the enumeration, then quit requests
    for a prefix of the list to close, all of it when the call returns. *)
Lemma close_all_gui_apps_scripts excluded_apps h R es0 :
  get_running_gui_apps w (h ++ [getting]) = (Ok R, es0) →
  let Q := filter (λ app, app ∉ default EXCLUDED_APPS excluded_apps) R in
  ∃ closed, closed `prefix_of` Q ∧
    osascripts (close_all_gui_apps w excluded_apps h).2 =
      get_applescript_list_running_apps :: (quit_script <$> closed) ∧
    ((close_all_gui_apps w excluded_apps h).1 = Ok tt → closed = Q).
Proof.
  intros Hrun Q.
  pose proof (get_running_gui_apps_scripts (h ++ [getting])) as Hs0.
  rewrite Hrun in Hs0. simpl in Hs0.
  pose proof (close_all_gui_apps_run w excluded_apps h R es0 Hrun) as Hstages.
  cbv zeta in Hstages. fold Q in Hstages. clearbody Q. rewrite Hstages. clear Hstages.
  destruct Q as [|a Q'] eqn:HQ.
  { exists []. split_and!; [done| |done]. simpl. rewrite osascripts_app, Hs0. done. }
  rewrite <- HQ. clear HQ a Q'.
  pose proof (osascripts_countdown (h ++ getting :: es0 ++ announcement Q)) as Hcd.
  destruct (countdown w _) as [[[]|e] cd]; simpl in Hcd.
  2:{ exists []. split_and!; [apply prefix_nil| |done]. simpl.
      by rewrite !osascripts_app, Hs0, osascripts_announcement, Hcd. }
  destruct (closing_loop_rounds w Q
              (h ++ (getting :: es0 ++ announcement Q) ++ cd ++ [closing]))
    as (closed & replies & Hpre & Hlen & Hes & Hok).
  assert (∀ tail, osascripts tail = [] →
            osascripts ((getting :: es0 ++ announcement Q) ++ cd ++ [closing]
               ++ concat (zip_with close_events closed replies) ++ tail)
            = get_applescript_list_running_apps :: (quit_script <$> closed)) as Hall.
  { intros tail Htail.
    rewrite !osascripts_app, osascripts_print, !osascripts_app, osascripts_print.
    rewrite Hs0, osascripts_announcement, Hcd, Htail, osascripts_nil.
    rewrite osascripts_rounds by done. simpl. by rewrite app_nil_r. }
  destruct (for_each Q (close_app w) _) as [[[]|e] ce]; simpl in Hes, Hok; subst ce.
  - exists closed. destruct (sigint w _); cbn [fst snd].
    + split_and!; [done| |done].
      etrans; [|apply (Hall [Sleep 1000] eq_refl)]. f_equal. by flatten.
    + split_and!; [done| |by intros _; apply Hok].
      etrans; [|apply (Hall [Sleep 1000; all_closed] eq_refl)]. f_equal. by flatten.
  - exists closed. split_and!; [done| |done]. cbn [snd].
    etrans; [|apply (Hall [] eq_refl)]. f_equal. by flatten.
Qed.

Lemma close_all_gui_apps_uninterrupted excluded_apps h R es0 :
  get_running_gui_apps w (h ++ [getting]) = (Ok R, es0) →
  uninterrupted w →
  let Q := filter (λ app, app ∉ default EXCLUDED_APPS excluded_apps) R in
  Q ≠ [] →
  let pre := getting :: es0 ++ announcement Q ++
             countdown_ticks COUNTDOWN_SECONDS ++ [closing] in
  close_all_gui_apps w excluded_apps h =
    (Ok tt, pre ++ concat (zip_with close_events Q (quit_replies w Q (h ++ pre)))
            ++ [Sleep 1000; all_closed]).
Proof.
  intros Hrun Hun Q HQ pre.
  pose proof (close_all_gui_apps_run w excluded_apps h R es0 Hrun) as Hstages.
  cbv zeta in Hstages. fold Q in Hstages. subst pre. clearbody Q. rewrite Hstages. clear Hstages.
  destruct Q as [|a Q'] eqn:HQ'; [done|]. clear HQ. rewrite <- HQ'. clear HQ' a Q'.
  rewrite countdown_uninterrupted by done.
  rewrite closing_loop_replies by done.
  rewrite (proj1 Hun). f_equal. by flatten.
Qed.

End CloseAllProperties.

(** ** The claims about [close_all_gui_apps] *)

Section CloseAllClaims.
Context (w : world).

Local Abbreviation getting := (Print "Getting list of running GUI applications...").
Local Abbreviation closing := (Print (LF +:+ "Closing applications...")).
Local Abbreviation all_closed := (Print (LF +:+ "All applications closed.")).
Local Abbreviation cancelled := (Print (LF +:+ LF +:+ "Cancelled by user.")).

(** C6. When no enumerated application remains after the excluded ones are
    removed, [close_all_gui_apps] prints its message and returns normally:
    the only script it ran is the enumeration, so no quit request was issued,
    and it never slept, so no countdown ran. *)
Theorem close_all_nothing_to_close excluded_apps h R es0 :
  get_running_gui_apps w (h ++ [getting]) = (Ok R, es0) →
  filter (λ app, app ∉ default EXCLUDED_APPS excluded_apps) R = [] →
  close_all_gui_apps w excluded_apps h =
    (Ok tt, getting :: es0 ++ [Print "No GUI applications to close."])
  ∧ osascripts (close_all_gui_apps w excluded_apps h).2 = [get_applescript_list_running_apps]
  ∧ sleepless (close_all_gui_apps w excluded_apps h).2.
Proof.
  intros Hrun HQ.
  pose proof (close_all_gui_apps_run w excluded_apps h R es0 Hrun) as Hstages.
  cbv zeta in Hstages. rewrite HQ in Hstages. rewrite Hstages.
  pose proof (get_running_gui_apps_scripts w (h ++ [getting])) as Hs0.
  pose proof (get_running_gui_apps_sleepless w (h ++ [getting])) as Hsl.
  rewrite Hrun in Hs0, Hsl. simpl in Hs0, Hsl.
  split_and!; [done| |].
  - cbn [snd]. by rewrite osascripts_print, osascripts_app, Hs0.
  - cbn [snd]. constructor; [done|]. apply Forall_app. split; [done|]. by repeat constructor.
Qed.

(** C2. Whatever the world does, [close_all_gui_apps] sends no quit request
    for an excluded name, and the scripts it runs are the enumeration followed
    by quit requests for an initial part of the enumerated names that are not
    excluded, in enumeration order.  When the call returns, and it does
    whenever no Ctrl-C arrives, the quit requests are exactly the enumerated
    names that are not excluded, in enumeration order. *)
Theorem close_all_quits_running_minus_excluded excluded_apps h R es0 :
  get_running_gui_apps w (h ++ [getting]) = (Ok R, es0) →
  let E := default EXCLUDED_APPS excluded_apps in
  let Q := filter (λ app, app ∉ E) R in
  let result := close_all_gui_apps w excluded_apps h in
  (∀ app, app ∈ E → Osascript (quit_script app) ∉ result.2)
  ∧ (∃ closed, closed `prefix_of` Q ∧
       osascripts result.2 = get_applescript_list_running_apps :: (quit_script <$> closed))
  ∧ (result.1 = Ok tt →
       osascripts result.2 = get_applescript_list_running_apps :: (quit_script <$> Q))
  ∧ (uninterrupted w → result.1 = Ok tt).
Proof.
  intros Hrun E Q result.
  destruct (close_all_gui_apps_scripts w excluded_apps h R es0 Hrun)
    as (closed & Hpre & Hscripts & Hok).
  fold E Q result in Hpre, Hscripts, Hok.
  split_and!.
  - intros app HE Hin.
    assert (quit_script app ∈ osascripts result.2) as Hq.
    { unfold osascripts. apply list_elem_of_omap. by exists (Osascript (quit_script app)). }
    rewrite Hscripts in Hq. apply elem_of_cons in Hq as [Hq|Hq].
    { by apply quit_script_not_list in Hq. }
    apply list_elem_of_fmap in Hq as (app' & Heq & Hin').
    apply quit_script_inj in Heq as <-.
    assert (app ∈ Q) as HQ by (destruct Hpre as [k ->]; apply elem_of_app; by left).
    apply list_elem_of_filter in HQ as [HQ _]. done.
  - by exists closed.
  - intros Hr. by rewrite Hscripts, (Hok Hr).
  - intros Hun. destruct (decide (Q = [])) as [HQ|HQ].
    + subst result. by rewrite (proj1 (close_all_nothing_to_close _ _ _ _ Hrun HQ)).
    + subst result.
      by rewrite (close_all_gui_apps_uninterrupted w excluded_apps h R es0 Hrun Hun HQ).
Qed.

(** C4. When a Ctrl-C arrives during one of the sleeps of the countdown,
    [close_all_gui_apps] prints "Cancelled by user." and raises
    [SystemExit(0)]: the trace stops there, the only script run is the
    enumeration (no quit request), whatever follows the call is not run, and
    the exit status is 0. *)
Theorem close_all_cancelled_in_countdown excluded_apps h R es0 p :
  get_running_gui_apps w (h ++ [getting]) = (Ok R, es0) →
  let Q := filter (λ app, app ∉ default EXCLUDED_APPS excluded_apps) R in
  Q ≠ [] →
  p ∈ sleep_points COUNTDOWN_SECONDS →
  sigint w (h ++ getting :: es0 ++ announcement Q ++ p) = true →
  let result := close_all_gui_apps w excluded_apps h in
  result.1 = Raised (SystemExit 0)
  ∧ exit_status result.1 = 0%Z
  ∧ (∃ p', p' ∈ sleep_points COUNTDOWN_SECONDS ∧
       result.2 = getting :: es0 ++ announcement Q ++ p' ++ [Sleep 1000; cancelled])
  ∧ osascripts result.2 = [get_applescript_list_running_apps]
  ∧ (∀ (k : M unit), (close_all_gui_apps w excluded_apps ;; k) h = result).
Proof.
  intros Hrun Q HQ Hp Hsig result.
  pose proof (close_all_gui_apps_run w excluded_apps h R es0 Hrun) as Hstages.
  cbv zeta in Hstages. fold Q in Hstages.
  destruct (countdown_cancelled w (h ++ getting :: es0 ++ announcement Q) p Hp)
    as (p' & Hp' & Hcd).
  { replace ((h ++ getting :: es0 ++ announcement Q) ++ p)
      with (h ++ getting :: es0 ++ announcement Q ++ p) by (by flatten). exact Hsig. }
  assert (result = (Raised (SystemExit 0),
                    getting :: es0 ++ announcement Q ++ p' ++ [Sleep 1000; cancelled]))
    as Hres.
  { subst result. rewrite Hstages. clearbody Q. destruct Q as [|a Q']; [done|].
    rewrite Hcd. f_equal. by flatten. }
  pose proof (get_running_gui_apps_scripts w (h ++ [getting])) as Hs0.
  rewrite Hrun in Hs0. simpl in Hs0.
  split_and!.
  - by rewrite Hres.
  - by rewrite Hres.
  - exists p'. by rewrite Hres.
  - rewrite Hres. cbn [snd].
    rewrite osascripts_print, !osascripts_app, Hs0, osascripts_announcement.
    by rewrite (osascripts_sleep_point _ _ Hp').
  - intros k. rewrite bind_run. fold result. by rewrite Hres.
Qed.

End CloseAllClaims.

(** Compute the scripts of a trace built from known pieces. *)
Ltac scripts :=
  repeat first
    [ rewrite osascripts_app | rewrite osascripts_print | rewrite osascripts_sleep
    | rewrite osascripts_script | rewrite osascripts_nil
    | rewrite osascripts_announcement | rewrite osascripts_countdown_ticks
    | rewrite osascripts_close_events ].

(** C8. [COUNTDOWN_SECONDS] is 3, so a countdown that is not interrupted
    prints "3...", "2...", "1...", each followed by a sleep of one second.
    When the enumeration yields Chrome, Terminal and Notes and Terminal is
    excluded, the list to close is Chrome, Notes; the call announces the two,
    counts down and then sends the quit request for Chrome and the one for
    Notes, in that order. *)
Theorem countdown_and_scenario (w : world) h es0 :
  uninterrupted w →
  get_running_gui_apps w (h ++ [Print "Getting list of running GUI applications..."]) =
    (Ok ["Chrome"; "Terminal"; "Notes"], es0) →
  let excluded : gset string := {["Terminal"]} in
  let ticks := [Print "3..."; Sleep 1000; Print "2..."; Sleep 1000; Print "1..."; Sleep 1000] in
  let pre := Print "Getting list of running GUI applications..." :: es0 ++
             [Print (LF +:+ "Found 2 applications to close:");
              Print "  - Chrome"; Print "  - Notes";
              Print (LF +:+ "Starting countdown: 3 seconds to cancel (Ctrl+C)...")] in
  COUNTDOWN_SECONDS = 3
  ∧ (∀ h', countdown w h' = (Ok tt, ticks))
  ∧ filter (λ app, app ∉ excluded) ["Chrome"; "Terminal"; "Notes"] = ["Chrome"; "Notes"]
  ∧ (∃ r1 r2,
       close_all_gui_apps w (Some excluded) h =
         (Ok tt, pre ++ ticks ++ [Print (LF +:+ "Closing applications...")] ++
                 close_events "Chrome" r1 ++ close_events "Notes" r2 ++
                 [Sleep 1000; Print (LF +:+ "All applications closed.")]))
  ∧ osascripts (close_all_gui_apps w (Some excluded) h).2 =
      [get_applescript_list_running_apps; quit_script "Chrome"; quit_script "Notes"].
Proof.
  intros Hun Hrun excluded ticks pre.
  assert (filter (λ app, app ∉ excluded) ["Chrome"; "Terminal"; "Notes"] = ["Chrome"; "Notes"])
    as HQ by (by vm_compute).
  pose proof (close_all_gui_apps_uninterrupted w (Some excluded) h _ es0 Hrun Hun) as Hall.
  cbv zeta in Hall.
  change (default EXCLUDED_APPS (Some excluded)) with excluded in Hall. rewrite HQ in Hall.
  specialize (Hall ltac:(discriminate)).
  split_and!; [done| |done| |].
  - intros h'. by rewrite countdown_uninterrupted.
  - eexists _, _. rewrite Hall. f_equal. subst pre ticks. simpl. by flatten.
  - rewrite Hall. cbn [snd zip_with quit_replies concat].
    pose proof (get_running_gui_apps_scripts w
      (h ++ [Print "Getting list of running GUI applications..."])) as Hs0.
    rewrite Hrun in Hs0. cbn [snd] in Hs0.
    scripts. rewrite Hs0. by scripts.
Qed.

(** *** The theorems at work on concrete desktops *)

Lemma three_apps_uninterrupted : uninterrupted three_apps.
Proof. split; [done|]. intros h script. simpl. by case_decide. Defined.

Lemma close_all_nothing_to_close_witness :
  close_all_gui_apps only_excluded None [] =
    (Ok tt, [Print "Getting list of running GUI applications...";
             Osascript get_applescript_list_running_apps;
             Print "No GUI applications to close."]).
Proof.
  refine (proj1 (close_all_nothing_to_close only_excluded None []
                   ["Finder"; "Terminal"] [Osascript get_applescript_list_running_apps] _ _)).
  - vm_compute. reflexivity.
  - vm_compute. reflexivity.
Defined.

Lemma close_all_quits_running_minus_excluded_witness :
  osascripts (close_all_gui_apps three_apps (Some {["Terminal"]}) []).2 =
    get_applescript_list_running_apps ::
    (quit_script <$> filter (λ app, app ∉ ({["Terminal"]} : gset string))
                       ["Chrome"; "Terminal"; "Notes"]).
Proof.
  pose proof (close_all_quits_running_minus_excluded three_apps (Some {["Terminal"]}) []
                ["Chrome"; "Terminal"; "Notes"] [Osascript get_applescript_list_running_apps])
    as H.
  destruct H as (_ & _ & Hexact & Hret).
  - vm_compute. reflexivity.
  - apply Hexact, Hret, three_apps_uninterrupted.
Defined.

Lemma close_all_cancelled_in_countdown_witness :
  (close_all_gui_apps three_apps_ctrl_c (Some {["Terminal"]}) []).1 = Raised (SystemExit 0).
Proof.
  refine (proj1 (close_all_cancelled_in_countdown three_apps_ctrl_c (Some {["Terminal"]}) []
                   ["Chrome"; "Terminal"; "Notes"]
                   [Osascript get_applescript_list_running_apps]
                   [Print "3..."] _ _ _ _)).
  - vm_compute. reflexivity.
  - vm_compute. discriminate.
  - apply list_elem_of_here.
  - reflexivity.
Defined.

Lemma countdown_and_scenario_witness :
  osascripts (close_all_gui_apps three_apps (Some {["Terminal"]}) []).2 =
    [get_applescript_list_running_apps; quit_script "Chrome"; quit_script "Notes"].
Proof.
  refine (proj2 (proj2 (proj2 (proj2
    (countdown_and_scenario three_apps [] [Osascript get_applescript_list_running_apps]
       three_apps_uninterrupted _))))).
  vm_compute. reflexivity.
Defined.

(** ** [open_and_maximize_apps] *)

Section Opening.
Context (w : world).

Lemma check_script_not_activate a b : get_applescript_check_app_exists a ≠ activate_script b.
Proof. intros H. apply (f_equal chars) in H. vm_compute in H. discriminate. Qed.

Lemma check_script_not_maximize a b :
  get_applescript_check_app_exists a ≠ get_applescript_maximize_window b.
Proof.
  intros H. apply (f_equal (λ s, take 8 (chars s))) in H. vm_compute in H. discriminate.
Qed.

Lemma check_not_opening specs script :
  is_check_script script → ¬ opens_one_of specs script.
Proof.
  intros [a ->] (spec & _ & [H|H]).
  - by apply check_script_not_activate in H.
  - by apply check_script_not_maximize in H.
Qed.

Lemma check_app_run spec acc h :
  let reply := osascript w h (get_applescript_check_app_exists spec.1) in
  check_app w spec acc h =
    (match reply with
     | Interrupted => Raised KeyboardInterrupt
     | Unavailable msg => Raised (OSError msg)
     | Undecodable msg => Raised (UnicodeDecodeError msg)
     | _ => Ok (if confirmed reply then acc ++ [spec] else acc)
     end, check_events spec reply).
Proof.
  destruct spec as [a p]. unfold check_app, check_events. cbn [fst].
  rewrite bind_run, run_applescript_run.
  destruct (osascript w h _) as [out|err| |msg|msg]; try done.
  cbn [confirmed default]. by destruct (_ && _).
Qed.

Lemma osascripts_check_events spec reply :
  osascripts (check_events spec reply) = [get_applescript_check_app_exists spec.1].
Proof. destruct reply; try done. unfold check_events. by destruct (confirmed _). Qed.

Lemma osascripts_checks specs replies :
  length replies = length specs →
  osascripts (concat (zip_with check_events specs replies)) =
    (λ spec, get_applescript_check_app_exists spec.1) <$> specs.
Proof.
  revert replies. induction specs as [|spec specs IH]; intros [|r replies] Hlen;
    try discriminate; [done|].
  injection Hlen as Hlen.
  change (osascripts (check_events spec r ++ concat (zip_with check_events specs replies))
          = get_applescript_check_app_exists spec.1 ::
            ((λ spec, get_applescript_check_app_exists spec.1) <$> specs)).
  by rewrite osascripts_app, osascripts_check_events, IH.
Qed.

(** The checking loop: a round per spec, over an initial part of the list,
    and over all of it when the loop ends without an exception. *)
Lemma checking_loop_rounds specs acc h :
  ∃ checked replies,
    checked `prefix_of` specs ∧ length replies = length checked ∧
    (for_acc specs acc (check_app w) h).2 = concat (zip_with check_events checked replies) ∧
    match (for_acc specs acc (check_app w) h).1 with
    | Ok installed => checked = specs ∧ installed = acc ++ installed_among specs replies
    | Raised e => e = KeyboardInterrupt ∨ ∃ msg, e = OSError msg ∨ e = UnicodeDecodeError msg
    end.
Proof.
  revert acc h. induction specs as [|spec specs IH]; intros acc h.
  { exists [], []. split_and!; try done. simpl. by rewrite app_nil_r. }
  simpl. rewrite bind_run, check_app_run. cbv zeta.
  set (reply := osascript w h _).
  assert (∀ e, (e = KeyboardInterrupt ∨ ∃ msg, e = OSError msg ∨ e = UnicodeDecodeError msg) →
    ∃ checked replies,
      checked `prefix_of` spec :: specs ∧ length replies = length checked ∧
      (Raised e : outcome (list (string * string)), check_events spec reply).2
        = concat (zip_with check_events checked replies) ∧
      (e = KeyboardInterrupt ∨ ∃ msg, e = OSError msg ∨ e = UnicodeDecodeError msg)) as Hstop.
  { intros e He. exists [spec], [reply].
    split_and!; [by apply prefix_cons, prefix_nil|done|simpl; by rewrite app_nil_r|done]. }
  assert (∀ acc',
    acc' = (if confirmed reply then acc ++ [spec] else acc) →
    ∃ checked replies,
      checked `prefix_of` spec :: specs ∧ length replies = length checked ∧
      (let '(r, es') := for_acc specs acc' (check_app w) (h ++ check_events spec reply)
       in (r, check_events spec reply ++ es')).2
        = concat (zip_with check_events checked replies) ∧
      match (let '(r, es') := for_acc specs acc' (check_app w) (h ++ check_events spec reply)
             in (r, check_events spec reply ++ es')).1 with
      | Ok installed =>
          checked = spec :: specs ∧ installed = acc ++ installed_among (spec :: specs) replies
      | Raised e => e = KeyboardInterrupt ∨ ∃ msg, e = OSError msg ∨ e = UnicodeDecodeError msg
      end) as Hgo.
  { intros acc' Hacc'.
    destruct (IH acc' (h ++ check_events spec reply)) as (checked & replies & Hpre & Hlen & Hes & Hr).
    destruct (for_acc specs acc' _ _) as [r es']. simpl in Hes, Hr. subst es'.
    exists (spec :: checked), (reply :: replies).
    split_and!; [by apply prefix_cons|simpl; by rewrite Hlen|done|].
    cbn [fst]. destruct r as [installed|e]; [|done].
    destruct Hr as [-> ->]. split; [done|]. subst acc'. simpl.
    destruct (confirmed reply); [|done]. by rewrite <- app_assoc. }
  destruct reply; eauto.
Qed.

Lemma checking_loop_returns specs acc h :
  uninterrupted w → available w →
  ∃ installed, (for_acc specs acc (check_app w) h).1 = Ok installed.
Proof.
  intros [_ Hint] Hav. revert acc h. induction specs as [|spec specs IH]; intros acc h.
  { by eexists. }
  simpl. rewrite bind_run, check_app_run. cbv zeta.
  specialize (Hint h (get_applescript_check_app_exists spec.1)).
  pose proof (Hav h (get_applescript_check_app_exists spec.1)) as Hav'.
  destruct (osascript w h _) as [out|err| |msg|msg];
    [| |done|by destruct (Hav' msg)|by destruct (Hav' msg)].
  - destruct (IH (if confirmed (Exit0 out) then acc ++ [spec] else acc)
                (h ++ check_events spec (Exit0 out))) as [installed Hi].
    destruct (for_acc specs _ _ _). simpl in *. eauto.
  - destruct (IH (if confirmed (NonZero err) then acc ++ [spec] else acc)
                (h ++ check_events spec (NonZero err))) as [installed Hi].
    destruct (for_acc specs _ _ _). simpl in *. eauto.
Qed.

End Opening.

Section OpeningLoop.
Context (w : world).

(** One round of the opening loop runs the activation and, unless that is cut
    short, the maximize script; only a Ctrl-C gets out of it. *)
Lemma open_app_cases spec h r es :
  open_app w spec h = (r, es) →
  (osascripts es = [activate_script spec.1] ∨
   osascripts es = [activate_script spec.1; get_applescript_maximize_window spec.2])
  ∧ (r = Ok tt ∨ r = Raised KeyboardInterrupt)
  ∧ (uninterrupted w → r = Ok tt).
Proof.
  destruct spec as [a p]. unfold open_app, try_except, maximize_window. cbn [fst snd default].
  rewrite bind_run. unfold print at 1. cbv iota beta.
  rewrite bind_run, run_applescript_run.
  assert (∀ r es, uninterrupted w → osascript w r es ≠ Interrupted) as Hni
    by (intros ?? [_ H]; apply H).
  assert (∀ h', uninterrupted w → sigint w h' = false) as Hns
    by (intros ? [H _]; apply H).
  destruct (osascript w _ (activate_script a)) as [out|err| |msg|msg] eqn:Hact;
    cbv iota beta; cbn [is_Exception].
  3:{ intros [= <- <-]. split_and!; [by left|by right|].
      intros Hun. by destruct (Hni _ _ Hun Hact). }
  3:{ unfold log_error, print. intros [= <- <-]. split_and!; [by left|by left|done]. }
  3:{ unfold log_error, print. intros [= <- <-]. split_and!; [by left|by left|done]. }
  all: rewrite bind_run; unfold sleep at 1; cbv iota beta.
  all: destruct (sigint w _) eqn:Hs1; cbv iota beta; cbn [is_Exception].
  all: try (intros [= <- <-]; split_and!; [by left|by right|];
            intros Hun; by rewrite (Hns _ Hun) in Hs1).
  all: rewrite bind_run; unfold print at 1; cbv iota beta.
  all: rewrite bind_run, bind_run, run_applescript_run.
  all: destruct (osascript w _ (get_applescript_maximize_window _))
         as [out'|err'| |msg'|msg'] eqn:Hmax;
    cbv iota beta; cbn [is_Exception].
  all: try (intros [= <- <-]; split_and!; [by right|by right|];
            intros Hun; by destruct (Hni _ _ Hun Hmax)).
  all: try (unfold log_error, print; intros [= <- <-]; split_and!; [by right|by left|done]).
  all: unfold ret at 1; cbv iota beta.
  all: rewrite bind_run; unfold log_success at 1, print at 1; cbv iota beta.
  all: unfold sleep at 1.
  all: match goal with |- context [sigint w ?x] => destruct (sigint w x) eqn:Hs2 end;
    cbn [is_Exception].
  all: intros [= <- <-]; split_and!; [by right|(by left) || (by right)|];
    intros Hun; try done; by rewrite (Hns _ Hun) in Hs2.
Qed.

Lemma open_app_run spec h :
  (osascripts (open_app w spec h).2 = [activate_script spec.1] ∨
   osascripts (open_app w spec h).2 =
     [activate_script spec.1; get_applescript_maximize_window spec.2])
  ∧ ((open_app w spec h).1 = Ok tt ∨ (open_app w spec h).1 = Raised KeyboardInterrupt)
  ∧ (uninterrupted w → (open_app w spec h).1 = Ok tt).
Proof. destruct (open_app w spec h) as [r es] eqn:H. by apply (open_app_cases spec h). Qed.

Lemma opening_loop_scripts installed h :
  Forall (opens_one_of installed) (osascripts (for_each installed (open_app w) h).2).
Proof.
  assert (∀ specs, specs ⊆ installed →
    Forall (opens_one_of installed) (osascripts (for_each specs (open_app w) h).2)) as H.
  2:{ by apply H. }
  intros specs. revert h. induction specs as [|spec specs IH]; intros h Hsub; [constructor|].
  simpl. rewrite bind_run.
  assert (spec ∈ installed) as Hin by (apply Hsub; apply list_elem_of_here).
  assert (Forall (opens_one_of installed) (osascripts (open_app w spec h).2)) as Hone.
  { destruct (open_app_run spec h) as ([->| ->] & _ & _); repeat constructor;
      exists spec; split; auto. }
  destruct (open_app w spec h) as [[[]|e] es]; cbn [snd] in Hone; [|done].
  specialize (IH (h ++ es)). destruct (for_each specs _ _) as [r es']. cbn [snd] in *.
  rewrite osascripts_app. apply Forall_app. split; [done|].
  apply IH. intros x Hx. apply Hsub. by apply list_elem_of_further.
Qed.

Lemma opening_loop_returns installed h :
  uninterrupted w → (for_each installed (open_app w) h).1 = Ok tt.
Proof.
  intros Hun. revert h. induction installed as [|spec specs IH]; intros h; [done|].
  simpl. rewrite bind_run.
  destruct (open_app_run spec h) as (_ & _ & Hok). specialize (Hok Hun).
  destruct (open_app w spec h) as [r es]. cbn [fst] in Hok. subst r.
  specialize (IH (h ++ es)). destruct (for_each specs _ _) as [r es']. by simpl in *.
Qed.

End OpeningLoop.

Section OpenAndMaximize.
Context (w : world).

Local Abbreviation checking := (Print (LF +:+ "Checking installed applications...")).
Local Abbreviation opening := (Print (LF +:+ "Opening and maximizing applications...")).
Local Abbreviation complete :=
  (Print (LF +:+ "✓ Workflow complete! All applications opened and maximized.")).

(** The run of [open_and_maximize_apps], laid out along its two loops. *)
Lemma open_and_maximize_apps_run apps_to_open h :
  open_and_maximize_apps w apps_to_open h =
    match for_acc apps_to_open [] (check_app w) (h ++ [checking]) with
    | (Ok installed_apps, ce) =>
        match for_each installed_apps (open_app w) (h ++ checking :: ce ++ [opening]) with
        | (Ok _, oe) => (Ok tt, checking :: ce ++ opening :: oe ++ [complete])
        | (Raised e, oe) => (Raised e, checking :: ce ++ opening :: oe)
        end
    | (Raised e, ce) => (Raised e, checking :: ce)
    end.
Proof.
  unfold open_and_maximize_apps.
  rewrite bind_run. unfold print at 1. cbv iota beta.
  rewrite bind_run.
  destruct (for_acc apps_to_open [] _ _) as [[installed|e] ce]; [|done].
  rewrite bind_run. unfold print at 1. cbv iota beta.
  rewrite bind_run.
  replace (((h ++ [checking]) ++ ce) ++ [opening]) with (h ++ checking :: ce ++ [opening])
    by (by flatten).
  destruct (for_each installed _ _) as [[[]|e] oe]; [|done].
  unfold print. cbv iota beta. by flatten.
Qed.

Lemma osascript_in_part (es : list event) i script :
  es !! i = Some (Osascript script) → script ∈ osascripts es.
Proof.
  intros H. apply list_elem_of_omap. exists (Osascript script).
  split; [|done]. by apply list_elem_of_lookup_2 in H.
Qed.

End OpenAndMaximize.

(** C1, at the input that separates the code from the claim.  On a desktop
    without Google Chrome the check script returns "not found"; the test of
    line 217 finds "found" inside it, so the chrome_flow list is logged as
    found, activated and maximized, and no "not found (skipping)" line is
    printed. *)
Theorem open_and_maximize_opens_missing_app :
  AppleScript.check_script chrome_missing_desktop
    = (Some "not found", [AppleScript.GetApplicationFileId])
  ∧ confirmed (osascript chrome_missing [] (get_applescript_check_app_exists "Google Chrome"))
    = true
  ∧ open_and_maximize_apps chrome_missing APPS_TO_OPEN [] =
      (Ok tt,
       [Print (LF +:+ "Checking installed applications...");
        Osascript (get_applescript_check_app_exists "Google Chrome");
        Print "  ✓ Google Chrome found";
        Print (LF +:+ "Opening and maximizing applications...");
        Print (LF +:+ "  Opening Google Chrome...");
        Osascript (activate_script "Google Chrome");
        Sleep 2000;
        Print "  Maximizing Google Chrome...";
        Osascript (get_applescript_maximize_window "Google Chrome");
        Print "  ✓ Google Chrome ready";
        Sleep 500;
        Print (LF +:+ "✓ Workflow complete! All applications opened and maximized.")]).
Proof. split_and!; vm_compute; reflexivity. Qed.

(** ** [maximize_window] *)

Section Maximize.
Import AppleScript.

(** C5 as stated fails where the window test itself raises an error: the
    script goes straight to the zoom button, although neither the fullscreen
    attribute nor the resize was attempted. *)
Lemma zoom_without_resize_error : ¬ fallback_only_after_error window_test_fails.
Proof.
  intros H. destruct (H Zoom Resize) as [Hin _]; [|done|].
  - vm_compute. apply list_elem_of_here.
  - vm_compute in Hin. by apply list_elem_of_singleton in Hin.
Qed.

Lemma maximize_script_chain (d : desktop) :
  let run := maximize_script d in
  attempted run ∈ [[]; [Fullscreen]; [Fullscreen; Resize]; [Fullscreen; Resize; Zoom]; [Zoom]]
  ∧ (Fullscreen ∈ attempted run ↔
       in_front d = true ∧ fails d ExistsWindow = false ∧ has_window d = true)
  ∧ (Resize ∈ attempted run ↔ Fullscreen ∈ attempted run ∧ errors d Fullscreen = true)
  ∧ (Zoom ∈ attempted run ↔
       (Resize ∈ attempted run ∧ errors d Resize = true)
       ∨ (in_front d = true ∧ fails d ExistsWindow = true))
  ∧ Forall (λ s, errors d s = false → last (attempted run) = Some s) (attempted run)
  ∧ (attempted run ≠ [] → run.1 = Some tt).
Proof.
  destruct d as [f hw].
  unfold maximize_script, exists_window, send, attempted, errors, in_front.
  cbn [fails has_window].
  destruct (f SetFrontmost), (f Delay), (f ExistsWindow), hw, (f SetFullScreen),
    (f GetScreenBounds), (f SetPosition), (f SetSize), (f SetZoomButton);
    by apply (bool_decide_unpack _).
Qed.

(** C5, amended.  Once the process is in front, the script goes through the
    three strategies in the order fullscreen attribute, resize to the screen
    bounds, zoom, and stops at the first that succeeds: the fullscreen
    attribute is attempted exactly when the window test answers that the
    window exists; the resize exactly when the fullscreen attribute was
    attempted and errored; the zoom exactly when the resize was attempted and
    errored or when the window test itself raised an error, in which case
    nothing else was attempted.  Nothing is attempted after a strategy that
    succeeded.  Once a strategy has been attempted the script cannot fail any
    more, so, in particular when all three fail, [maximize_window] returns
    normally and its only event is the script call: no line is logged.
    Whenever the interpreter ran, [maximize_window] returns normally. *)
Theorem maximize_fallback_chain (d : desktop) (w : world) app_name process_name h :
  let script := get_applescript_maximize_window (default app_name process_name) in
  let run := maximize_script d in
  exit_of run (osascript w h script) →
  attempted run ∈ [[]; [Fullscreen]; [Fullscreen; Resize]; [Fullscreen; Resize; Zoom]; [Zoom]]
  ∧ (Fullscreen ∈ attempted run ↔
       in_front d = true ∧ fails d ExistsWindow = false ∧ has_window d = true)
  ∧ (Resize ∈ attempted run ↔ Fullscreen ∈ attempted run ∧ errors d Fullscreen = true)
  ∧ (Zoom ∈ attempted run ↔
       (Resize ∈ attempted run ∧ errors d Resize = true)
       ∨ (in_front d = true ∧ fails d ExistsWindow = true))
  ∧ Forall (λ s, errors d s = false → last (attempted run) = Some s) (attempted run)
  ∧ (attempted run ≠ [] →
       run.1 = Some tt ∧
       maximize_window w app_name process_name h = (Ok tt, [Osascript script]))
  ∧ (maximize_window w app_name process_name h).1 = Ok tt.
Proof.
  intros script run Hexit.
  destruct (maximize_script_chain d) as (Hseq & Hfull & Hresize & Hzoom & Hstop & Hends).
  fold run in Hseq, Hfull, Hresize, Hzoom, Hstop, Hends.
  assert (maximize_window w app_name process_name h =
            (Ok tt, Osascript script ::
                    match osascript w h script with
                    | NonZero stderr => [Print ("  ✗ AppleScript error: " +:+ stderr)]
                    | _ => []
                    end)) as Hpy.
  { unfold maximize_window. fold script. rewrite bind_run, run_applescript_run.
    unfold exit_of in Hexit.
    destruct (osascript w h script); try done; by destruct run.1. }
  split_and!; try done.
  - intros Hne. specialize (Hends Hne). split; [done|].
    rewrite Hpy. unfold exit_of in Hexit. rewrite Hends in Hexit.
    by destruct (osascript w h script).
  - by rewrite Hpy.
Qed.

Lemma maximize_fallback_chain_witness :
  attempted (maximize_script nothing_works) = [Fullscreen; Resize; Zoom]
  ∧ Forall (λ s, errors nothing_works s = true) [Fullscreen; Resize; Zoom]
  ∧ maximize_window quiet "Notes" None [] =
      (Ok tt, [Osascript (get_applescript_maximize_window "Notes")]).
Proof.
  split_and!; [done|by repeat constructor|].
  destruct (maximize_fallback_chain nothing_works quiet "Notes" None [])
    as (_ & _ & _ & _ & _ & Hends & _); [exact I|].
  destruct Hends as [_ Hrun]; [discriminate|]. exact Hrun.
Defined.

End Maximize.

(** * Further properties *)

(** ** [str.strip] as the program uses it *)

Lemma lstrip_no_leading_space s : starts_with_space (Py.lstrip s) = false.
Proof.
  induction s as [|c s IH]; [done|]. simpl.
  destruct (Py.isspace c) eqn:Hc; [done|]. simpl. done.
Qed.

Lemma rev_involutive s : String.rev (String.rev s) = s.
Proof. apply chars_inj. by rewrite !chars_rev, reverse_involutive. Qed.

Lemma rev_cons c s : String.rev (String c s) = String.rev s +:+ String c "".
Proof.
  apply chars_inj. rewrite chars_rev, chars_app, chars_rev.
  unfold chars. simpl. by rewrite reverse_cons.
Qed.

Lemma rev_snoc c s : String.rev (s +:+ String c "") = String c (String.rev s).
Proof.
  apply chars_inj. rewrite chars_rev, chars_app.
  unfold chars at 2 3. simpl. fold (chars (String.rev s)).
  by rewrite reverse_app, chars_rev.
Qed.

Lemma lstrip_keeps_last s c :
  Py.isspace c = false → ∃ s', Py.lstrip (s +:+ String c "") = s' +:+ String c "".
Proof.
  intros Hc. induction s as [|a s IH].
  - exists "". simpl. by rewrite Hc.
  - change (String a s +:+ String c "") with (String a (s +:+ String c "")).
    simpl. destruct (Py.isspace a); [done|]. by exists (String a s).
Qed.

Lemma rstrip_no_trailing_space s : ends_with_space (Py.rstrip s) = false.
Proof.
  unfold ends_with_space, Py.rstrip. rewrite rev_involutive.
  apply lstrip_no_leading_space.
Qed.

Lemma rstrip_keeps_first s :
  starts_with_space s = false → starts_with_space (Py.rstrip s) = false.
Proof.
  destruct s as [|c s]; [done|]. simpl. intros Hc.
  unfold Py.rstrip. rewrite rev_cons.
  destruct (lstrip_keeps_last (String.rev s) c Hc) as [s' ->].
  by rewrite rev_snoc.
Qed.

Lemma strip_no_surrounding_space s :
  starts_with_space (Py.strip s) = false ∧ ends_with_space (Py.strip s) = false.
Proof.
  unfold Py.strip. split.
  - apply rstrip_keeps_first, lstrip_no_leading_space.
  - apply rstrip_no_trailing_space.
Qed.

(** X1. Whatever [osascript] prints, the text [run_applescript] returns
    neither begins nor ends with whitespace. *)
Theorem run_applescript_output_stripped w script h output :
  (run_applescript w script h).1 = Ok (Some output) →
  starts_with_space output = false ∧ ends_with_space output = false.
Proof.
  rewrite run_applescript_run.
  destruct (osascript w h script); try discriminate.
  intros [= <-]. apply strip_no_surrounding_space.
Qed.

Lemma run_applescript_output_stripped_witness :
  (run_applescript padded "x" []).1 = Ok (Some "Notes ,  Mail")
  ∧ starts_with_space "Notes ,  Mail" = false ∧ ends_with_space "Notes ,  Mail" = false.
Proof.
  split; [reflexivity|].
  apply (run_applescript_output_stripped padded "x" []). reflexivity.
Defined.

(** X2. No name that [get_running_gui_apps] returns begins or ends with
    whitespace, whatever the spacing around the commas of the output. *)
Theorem get_running_gui_apps_names_stripped w h apps :
  (get_running_gui_apps w h).1 = Ok apps →
  Forall (λ app, starts_with_space app = false ∧ ends_with_space app = false) apps.
Proof.
  rewrite get_running_gui_apps_run.
  destruct (osascript w h _) as [stdout| | | |]; try discriminate.
  - intros [= <-]. case_decide; [constructor|].
    apply Forall_fmap, Forall_forall. intros tok _. apply strip_no_surrounding_space.
  - intros [= <-]. constructor.
Qed.

Lemma get_running_gui_apps_names_stripped_witness :
  (get_running_gui_apps padded []).1 = Ok ["Notes"; "Mail"]
  ∧ Forall (λ app, starts_with_space app = false ∧ ends_with_space app = false)
      ["Notes"; "Mail"].
Proof.
  split; [reflexivity|].
  apply (get_running_gui_apps_names_stripped padded []). reflexivity.
Defined.

(** ** How [close_all_gui_apps] can end *)

Section CloseAllEnds.
Context (w : world).

Local Abbreviation getting := (Print "Getting list of running GUI applications...").
Local Abbreviation closing := (Print (LF +:+ "Closing applications...")).

Lemma close_all_gui_apps_enumeration_raised excluded_apps h e es0 :
  get_running_gui_apps w (h ++ [getting]) = (Raised e, es0) →
  close_all_gui_apps w excluded_apps h = (Raised e, getting :: es0).
Proof.
  intros Hrun. unfold close_all_gui_apps.
  rewrite bind_run. unfold print at 1. cbv iota beta.
  by rewrite bind_run, Hrun.
Qed.

Lemma close_app_outcome app h :
  (close_app w app h).1 = Ok tt ∨ (close_app w app h).1 = Raised KeyboardInterrupt.
Proof.
  rewrite close_app_run. cbn [fst].
  destruct (osascript w h (quit_script app)); auto; destruct (sigint w _); auto.
Qed.

Lemma closing_loop_outcome apps h :
  (for_each apps (close_app w) h).1 = Ok tt
  ∨ (for_each apps (close_app w) h).1 = Raised KeyboardInterrupt.
Proof.
  revert h. induction apps as [|app apps IH]; intros h; [by left|].
  simpl. rewrite bind_run.
  destruct (close_app_outcome app h) as [Hone|Hone];
    destruct (close_app w app h) as [r es]; cbn [fst] in Hone; subst r; [|by right].
  specialize (IH (h ++ es)). by destruct (for_each apps _ _).
Qed.

(** X4. A Ctrl-C after the countdown is not handled.  When it arrives in the
    first round of the closing loop, during the quit request or the pause
    after it, [close_all_gui_apps] raises [KeyboardInterrupt]: the trace stops
    in that round, the other applications of the list get no quit request,
    and the exit status is not 0. *)
Theorem close_all_late_ctrl_c excluded_apps h R es0 app rest :
  get_running_gui_apps w (h ++ [getting]) = (Ok R, es0) →
  filter (λ app, app ∉ default EXCLUDED_APPS excluded_apps) R = app :: rest →
  (∀ p, p ∈ sleep_points COUNTDOWN_SECONDS →
        sigint w (h ++ getting :: es0 ++ announcement (app :: rest) ++ p) = false) →
  let pre := getting :: es0 ++ announcement (app :: rest) ++
             countdown_ticks COUNTDOWN_SECONDS ++ [closing] in
  ctrl_c_in_round w app (h ++ pre) = true →
  let result := close_all_gui_apps w excluded_apps h in
  result = (Raised KeyboardInterrupt,
            pre ++ close_events app (osascript w (h ++ pre) (quit_script app)))
  ∧ osascripts result.2 = [get_applescript_list_running_apps; quit_script app]
  ∧ exit_status result.1 ≠ 0%Z.
Proof.
  intros Hrun HQ Hquiet pre Hctrl result.
  assert (result = (Raised KeyboardInterrupt,
            pre ++ close_events app (osascript w (h ++ pre) (quit_script app)))) as Hres.
  { subst result.
    pose proof (close_all_gui_apps_run w excluded_apps h R es0 Hrun) as Hstages.
    cbv zeta in Hstages. rewrite HQ in Hstages. rewrite Hstages. clear Hstages.
    rewrite countdown_complete.
    2:{ intros p Hp. specialize (Hquiet p Hp).
        replace ((h ++ getting :: es0 ++ announcement (app :: rest)) ++ p)
          with (h ++ getting :: es0 ++ announcement (app :: rest) ++ p) by (by flatten).
        done. }
    replace ((getting :: es0 ++ announcement (app :: rest)) ++
             countdown_ticks COUNTDOWN_SECONDS ++ [closing]) with pre
      by (subst pre; by flatten).
    cbn [for_each]. rewrite bind_run, close_app_run. cbv zeta.
    unfold ctrl_c_in_round in Hctrl.
    destruct (osascript w (h ++ pre) (quit_script app)); try done; by rewrite Hctrl. }
  split_and!; [done| |by rewrite Hres].
  rewrite Hres. cbn [snd]. subst pre.
  pose proof (get_running_gui_apps_scripts w (h ++ [getting])) as Hs0.
  rewrite Hrun in Hs0. cbn [snd] in Hs0.
  scripts. rewrite Hs0. by scripts.
Qed.

End CloseAllEnds.

Lemma close_all_late_ctrl_c_witness :
  (close_all_gui_apps three_apps_late_ctrl_c (Some {["Terminal"]}) []).1
    = Raised KeyboardInterrupt.
Proof.
  pose proof (close_all_late_ctrl_c three_apps_late_ctrl_c (Some {["Terminal"]}) []
                ["Chrome"; "Terminal"; "Notes"]
                [Osascript get_applescript_list_running_apps] "Chrome" ["Notes"]) as H.
  destruct H as (Hres & _ & _).
  - vm_compute. reflexivity.
  - vm_compute. reflexivity.
  - reflexivity.
  - vm_compute. reflexivity.
  - by rewrite Hres.
Defined.

(** ** More on [open_and_maximize_apps] *)

Section OpenAndMaximizeMore.
Context (w : world).

Local Abbreviation checking := (Print (LF +:+ "Checking installed applications...")).
Local Abbreviation opening := (Print (LF +:+ "Opening and maximizing applications...")).
Local Abbreviation complete :=
  (Print (LF +:+ "✓ Workflow complete! All applications opened and maximized.")).

(** X5. The check script ends with "found" or with "not found", and the test
    of line 217 accepts both: whenever the answer to a check is what the
    script returns, on any desktop, the spec is logged as found and appended
    to the installed list. *)
Theorem check_script_never_rejects (d : AppleScript.desktop) spec installed_apps h :
  osascript w h (get_applescript_check_app_exists spec.1)
    = AppleScript.osascript_text (AppleScript.check_script d) →
  confirmed (osascript w h (get_applescript_check_app_exists spec.1)) = true
  ∧ check_app w spec installed_apps h =
      (Ok (installed_apps ++ [spec]),
       [Osascript (get_applescript_check_app_exists spec.1);
        Print ("  ✓ " +:+ spec.1 +:+ " found")]).
Proof.
  intros Hreply. rewrite check_app_run. cbv zeta. rewrite Hreply. clear Hreply.
  destruct d as [f hw].
  unfold AppleScript.check_script, AppleScript.send, AppleScript.osascript_text, check_events.
  cbn [AppleScript.fails].
  destruct (f AppleScript.GetApplicationFileId); split; reflexivity.
Qed.

Lemma opening_loop_outcome installed h :
  (for_each installed (open_app w) h).1 = Ok tt
  ∨ (for_each installed (open_app w) h).1 = Raised KeyboardInterrupt.
Proof.
  revert h. induction installed as [|spec specs IH]; intros h; [by left|].
  simpl. rewrite bind_run.
  destruct (open_app_run w spec h) as (_ & [Hone|Hone] & _);
    destruct (open_app w spec h) as [r es]; cbn [fst] in Hone; subst r; [|by right].
  specialize (IH (h ++ es)). by destruct (for_each specs _ _).
Qed.

End OpenAndMaximizeMore.

Lemma chrome_missing_uninterrupted : uninterrupted chrome_missing.
Proof. split; [done|]. intros h script. simpl. by case_decide. Defined.

Lemma check_script_never_rejects_witness :
  (check_app chrome_missing ("Google Chrome", "Google Chrome") [] []).1
    = Ok [("Google Chrome", "Google Chrome")].
Proof.
  pose proof (check_script_never_rejects chrome_missing chrome_missing_desktop
                ("Google Chrome", "Google Chrome") [] []) as H.
  destruct H as [_ Hrun].
  - vm_compute. reflexivity.
  - by rewrite Hrun.
Defined.


(** ** [main] *)

Section Main.
Context (w : world).

Local Abbreviation getting := (Print "Getting list of running GUI applications...").
Local Abbreviation cancelled := (Print (LF +:+ LF +:+ "Cancelled by user.")).
Local Abbreviation done_line := (Print (LF +:+ "Done!")).

(** The run of [main], laid out along its two calls. *)
Lemma main_run :
  main w [] =
    match close_all_gui_apps w None banner with
    | (Ok _, ce) =>
        match open_and_maximize_apps w APPS_TO_OPEN (banner ++ ce) with
        | (Ok _, oe) => (Ok tt, banner ++ ce ++ oe ++ [done_line])
        | (Raised e, oe) => (Raised e, banner ++ ce ++ oe)
        end
    | (Raised e, ce) => (Raised e, banner ++ ce)
    end.
Proof.
  unfold main.
  do 4 (rewrite bind_run; unfold print at 1; cbv iota beta).
  rewrite bind_run. cbn [app].
  change [Print (Py.repeat "=" 60); Print "Chrome-Only Workflow";
          Print (Py.repeat "=" 60); Print ""] with banner.
  destruct (close_all_gui_apps w None banner) as [[[]|e] ce]; [|done].
  rewrite bind_run.
  destruct (open_and_maximize_apps w APPS_TO_OPEN _) as [[[]|e] oe]; [|done].
  unfold print. cbv iota beta. unfold banner. by flatten.
Qed.

Lemma close_all_gui_apps_cancelled excluded_apps h R es0 p :
  get_running_gui_apps w (h ++ [getting]) = (Ok R, es0) →
  let Q := filter (λ app, app ∉ default EXCLUDED_APPS excluded_apps) R in
  Q ≠ [] →
  p ∈ sleep_points COUNTDOWN_SECONDS →
  sigint w (h ++ getting :: es0 ++ announcement Q ++ p) = true →
  ∃ p', p' ∈ sleep_points COUNTDOWN_SECONDS ∧
    close_all_gui_apps w excluded_apps h =
      (Raised (SystemExit 0),
       getting :: es0 ++ announcement Q ++ p' ++ [Sleep 1000; cancelled]).
Proof.
  intros Hrun Q HQ Hp Hsig.
  pose proof (close_all_gui_apps_run w excluded_apps h R es0 Hrun) as Hstages.
  cbv zeta in Hstages. fold Q in Hstages.
  destruct (countdown_cancelled w (h ++ getting :: es0 ++ announcement Q) p Hp)
    as (p' & Hp' & Hcd).
  { replace ((h ++ getting :: es0 ++ announcement Q) ++ p)
      with (h ++ getting :: es0 ++ announcement Q ++ p) by (by flatten). exact Hsig. }
  exists p'. split; [done|].
  rewrite Hstages. clearbody Q. destruct Q as [|a Q']; [done|].
  rewrite Hcd. f_equal. by flatten.
Qed.

(** X8. When the countdown of [main] is cancelled, the whole workflow stops
    with [SystemExit(0)]: the trace ends with "Cancelled by user.", the only
    script run is the enumeration, so no application was closed, checked,
    activated or maximized, and "Done!" is not printed. *)
Theorem main_cancelled R es0 p :
  get_running_gui_apps w (banner ++ [getting]) = (Ok R, es0) →
  let Q := filter (λ app, app ∉ EXCLUDED_APPS) R in
  Q ≠ [] →
  p ∈ sleep_points COUNTDOWN_SECONDS →
  sigint w (banner ++ getting :: es0 ++ announcement Q ++ p) = true →
  let result := main w [] in
  result.1 = Raised (SystemExit 0)
  ∧ exit_status result.1 = 0%Z
  ∧ (∃ p', p' ∈ sleep_points COUNTDOWN_SECONDS ∧
       result.2 = banner ++ getting :: es0 ++ announcement Q ++ p' ++ [Sleep 1000; cancelled])
  ∧ osascripts result.2 = [get_applescript_list_running_apps]
  ∧ last result.2 = Some cancelled.
Proof.
  intros Hrun Q HQ Hp Hsig result.
  destruct (close_all_gui_apps_cancelled None banner R es0 p Hrun HQ Hp Hsig)
    as (p' & Hp' & Hclose).
  fold Q in Hclose.
  assert (result = (Raised (SystemExit 0),
            banner ++ getting :: es0 ++ announcement Q ++ p' ++ [Sleep 1000; cancelled]))
    as Hres by (subst result; by rewrite main_run, Hclose).
  pose proof (get_running_gui_apps_scripts w (banner ++ [getting])) as Hs0.
  rewrite Hrun in Hs0. cbn [snd] in Hs0.
  rewrite Hres. cbn [fst snd]. split_and!; [done|done|by exists p'| |].
  - rewrite osascripts_app. change (osascripts banner) with (@nil string).
    scripts. rewrite Hs0. by rewrite (osascripts_sleep_point _ _ Hp').
  - rewrite !app_comm_cons, !app_assoc.
    change [Sleep 1000; cancelled] with ([Sleep 1000] ++ [cancelled]).
    by rewrite app_assoc, last_snoc.
Qed.

End Main.

Lemma main_cancelled_witness : exit_status (main three_apps_ctrl_c []).1 = 0%Z.
Proof.
  pose proof (main_cancelled three_apps_ctrl_c ["Chrome"; "Terminal"; "Notes"]
                [Osascript get_applescript_list_running_apps] [Print "3..."]) as H.
  destruct H as (_ & Hexit & _).
  - vm_compute. reflexivity.
  - vm_compute. discriminate.
  - apply list_elem_of_here.
  - reflexivity.
  - exact Hexit.
Defined.

Section MainOrder.
Context (w : world).

Local Abbreviation getting := (Print "Getting list of running GUI applications...").
Local Abbreviation checking := (Print (LF +:+ "Checking installed applications...")).

Lemma installed_among_subseteq specs replies : installed_among specs replies ⊆ specs.
Proof.
  revert replies. induction specs as [|spec specs IH]; intros [|r replies]; simpl;
    try done; try apply list_subseteq_nil.
  destruct (confirmed r); intros x Hx.
  - apply elem_of_cons in Hx as [->|Hx]; [apply list_elem_of_here|].
    apply list_elem_of_further. by apply (IH replies).
  - apply list_elem_of_further. by apply (IH replies).
Qed.

(** Every script [open_and_maximize_apps] runs checks, activates or maximizes
    one of its specs. *)
Lemma open_and_maximize_apps_scripts apps_to_open h :
  Forall (λ script, ∃ spec, spec ∈ apps_to_open ∧
            (script = get_applescript_check_app_exists spec.1
             ∨ script = activate_script spec.1
             ∨ script = get_applescript_maximize_window spec.2))
    (osascripts (open_and_maximize_apps w apps_to_open h).2).
Proof.
  rewrite open_and_maximize_apps_run.
  destruct (checking_loop_rounds w apps_to_open [] (h ++ [checking]))
    as (checked & replies & Hpre & Hlen & Hes & Hr).
  assert (Forall (λ script, ∃ spec, spec ∈ apps_to_open ∧
            (script = get_applescript_check_app_exists spec.1
             ∨ script = activate_script spec.1
             ∨ script = get_applescript_maximize_window spec.2))
            (osascripts (concat (zip_with check_events checked replies)))) as Hchecks.
  { rewrite osascripts_checks by done. apply Forall_fmap, Forall_forall.
    intros spec Hspec. exists spec. split; [|by left].
    destruct Hpre as [k ->]. apply elem_of_app. by left. }
  destruct (for_acc apps_to_open [] _ _) as [[installed|e] ce]; cbn [fst snd] in Hes, Hr;
    subst ce; [|cbn [snd]; by rewrite osascripts_print].
  destruct Hr as [_ ->]. cbn [app].
  match goal with |- context [for_each ?l _ ?h'] =>
    pose proof (opening_loop_scripts w l h') as Hopen;
    destruct (for_each l (open_app w) h') as [r oe] end.
  cbn [snd] in Hopen.
  assert (Forall (λ script, ∃ spec, spec ∈ apps_to_open ∧
            (script = get_applescript_check_app_exists spec.1
             ∨ script = activate_script spec.1
             ∨ script = get_applescript_maximize_window spec.2)) (osascripts oe)) as Hoe.
  { eapply Forall_impl; [exact Hopen|]. intros script (spec & Hin & Hs).
    exists spec. split; [by eapply installed_among_subseteq|]. destruct Hs; auto. }
  destruct r as [[]|e]; cbn [snd]; scripts; rewrite ?app_nil_r;
    apply Forall_app; by split.
Qed.

(** X9. Whatever the world does, the scripts [main] runs come in this order:
    the enumeration, then quit requests, none of them for an excluded name,
    then only scripts that check, activate or maximize Google Chrome; and a
    Google Chrome script is run only after [close_all_gui_apps] has
    returned. *)
Theorem main_closes_before_it_opens :
  ∃ closed chrome,
    osascripts (main w []).2 =
      get_applescript_list_running_apps :: (quit_script <$> closed) ++ chrome
    ∧ Forall (λ app, app ∉ EXCLUDED_APPS) closed
    ∧ Forall chrome_script chrome
    ∧ (chrome ≠ [] → (close_all_gui_apps w None banner).1 = Ok tt).
Proof.
  rewrite main_run.
  assert (∃ closed, osascripts (close_all_gui_apps w None banner).2 =
            get_applescript_list_running_apps :: (quit_script <$> closed)
          ∧ Forall (λ app, app ∉ EXCLUDED_APPS) closed) as (closed & Hclose & Hex).
  { destruct (get_running_gui_apps w (banner ++ [getting])) as [[R|e] es0] eqn:Hrun.
    - destruct (close_all_gui_apps_scripts w None banner R es0 Hrun)
        as (closed & Hpre & Hs & _).
      exists closed. split; [done|]. apply Forall_forall. intros app Happ.
      assert (app ∈ filter (λ app, app ∉ default EXCLUDED_APPS None) R) as Hin
        by (destruct Hpre as [k ->]; apply elem_of_app; by left).
      by apply list_elem_of_filter in Hin as [Hin _].
    - exists []. split; [|constructor].
      rewrite (close_all_gui_apps_enumeration_raised w None banner e es0 Hrun).
      pose proof (get_running_gui_apps_scripts w (banner ++ [getting])) as Hs0.
      rewrite Hrun in Hs0. cbn [snd] in *. by rewrite osascripts_print. }
  destruct (close_all_gui_apps w None banner) as [[[]|e] ce]; cbn [snd] in Hclose.
  2:{ exists closed, []. cbn [snd]. rewrite osascripts_app, Hclose, app_nil_r.
      split_and!; [done|done|constructor|done]. }
  pose proof (open_and_maximize_apps_scripts APPS_TO_OPEN (banner ++ ce)) as Hopen.
  assert (Forall chrome_script
            (osascripts (open_and_maximize_apps w APPS_TO_OPEN (banner ++ ce)).2)) as Hchrome.
  { eapply Forall_impl; [exact Hopen|]. intros script (spec & Hin & Hs).
    apply list_elem_of_singleton in Hin as ->. exact Hs. }
  destruct (open_and_maximize_apps w APPS_TO_OPEN _) as [r oe]. cbn [snd] in Hchrome.
  exists closed, (osascripts oe).
  split_and!; [|done|done|done].
  destruct r as [[]|e]; cbn [snd]; rewrite !osascripts_app, Hclose;
    change (osascripts banner) with (@nil string); [|done].
  by rewrite osascripts_print, osascripts_nil, app_nil_r.
Qed.

End MainOrder.

(** ** More on [maximize_window] *)

Section MaximizeMore.
Import AppleScript.

Lemma maximize_script_failure (d : desktop) :
  let run := maximize_script d in
  (run.1 = None ↔ fails d SetFrontmost = true ∨ fails d Delay = true)
  ∧ (run.1 = None → attempted run = [])
  ∧ (fails d ExistsWindow = false → has_window d = false → attempted run = []).
Proof.
  destruct d as [f hw].
  unfold maximize_script, exists_window, send, attempted.
  cbn [fails has_window].
  destruct (f SetFrontmost); [by intuition|].
  destruct (f Delay); [by intuition|].
  destruct (f ExistsWindow).
  { destruct (f SetZoomButton); cbn; by intuition. }
  destruct hw; [|cbn; by intuition].
  destruct (f SetFullScreen), (f GetScreenBounds), (f SetPosition), (f SetSize),
    (f SetZoomButton); cbn; by intuition.
Qed.

(** X10. The maximize script fails as a whole exactly when the process cannot
    be brought to the front (or the delay fails), the two commands outside
    its [try]; no strategy has been attempted then, and [maximize_window]
    logs one "AppleScript error" line and returns normally.  When the process
    has no window, no strategy is attempted either. *)
Theorem maximize_window_without_attempt (d : desktop) (w : world) app_name process_name h :
  let script := get_applescript_maximize_window (default app_name process_name) in
  let run := maximize_script d in
  exit_of run (osascript w h script) →
  (run.1 = None ↔ fails d SetFrontmost = true ∨ fails d Delay = true)
  ∧ (run.1 = None →
       attempted run = []
       ∧ ∃ stderr, osascript w h script = NonZero stderr
           ∧ maximize_window w app_name process_name h =
               (Ok tt, [Osascript script; Print ("  ✗ AppleScript error: " +:+ stderr)]))
  ∧ (fails d ExistsWindow = false → has_window d = false → attempted run = []).
Proof.
  intros script run Hexit.
  destruct (maximize_script_failure d) as (Hiff & Hnone & Hnowin).
  fold run in Hiff, Hnone, Hnowin.
  split_and!; [done| |done].
  intros Hfail. split; [by apply Hnone|].
  unfold exit_of in Hexit. rewrite Hfail in Hexit.
  unfold maximize_window. fold script. rewrite bind_run, run_applescript_run.
  destruct (osascript w h script) as [out|err| |msg|msg]; try done. by exists err.
Qed.

Lemma maximize_window_without_attempt_witness :
  maximize_window failing "Notes" None [] =
    (Ok tt, [Osascript (get_applescript_maximize_window "Notes");
             Print ("  ✗ AppleScript error: " +:+ "execution error")]).
Proof.
  pose proof (maximize_window_without_attempt no_process failing "Notes" None []) as H.
  destruct H as (_ & Hfail & _); [exact I|].
  destruct Hfail as (_ & stderr & Hreply & Hrun); [reflexivity|].
  injection Hreply as <-. exact Hrun.
Defined.

End MaximizeMore.

(** ** The script texts *)

Lemma activate_script_inj a b : activate_script a = activate_script b → a = b.
Proof.
  unfold activate_script. intros H.
  do 2 apply String.app_inj in H. by apply app_inj_suffix in H.
Qed.

(** Cancel the equal pieces around the one place where two texts differ. *)
Ltac cancel_text H :=
  apply (f_equal chars) in H;
  repeat (rewrite !chars_app in H || rewrite <- !app_assoc in H);
  repeat apply app_inv_head in H;
  rewrite !app_assoc in H;
  repeat apply app_inv_tail in H;
  by apply chars_inj.

Lemma check_script_inj a b :
  get_applescript_check_app_exists a = get_applescript_check_app_exists b → a = b.
Proof.
  unfold get_applescript_check_app_exists, block. cbn [foldr]. intros H. cancel_text H.
Qed.

Lemma maximize_script_inj a b :
  get_applescript_maximize_window a = get_applescript_maximize_window b → a = b.
Proof.
  unfold get_applescript_maximize_window, block. cbn [foldr]. intros H. cancel_text H.
Qed.

Lemma ends_skip a s c1 c2 :
  take 2 (reverse (chars s)) = [c1; c2] →
  take 2 (reverse (chars (a +:+ s))) = [c1; c2].
Proof.
  intros Hs. rewrite chars_app, reverse_app.
  destruct (reverse (chars s)) as [|x [|y l]]; simplify_eq/=. done.
Qed.

Lemma quit_script_end a : take 2 (reverse (chars (quit_script a))) = ["t"; "i"]%char.
Proof. unfold quit_script. by do 3 apply ends_skip. Qed.

Lemma activate_script_end a :
  take 2 (reverse (chars (activate_script a))) = ["e"; "t"]%char.
Proof. unfold activate_script. by do 3 apply ends_skip. Qed.

(** X11. The text of a script tells what it asks and of whom: the quit, the
    activation, the check and the maximize script of a name each determine
    that name, and no script of one kind is ever equal to a script of another
    kind or to the enumeration script, whatever the names are. *)
Theorem script_texts_distinct a b :
  (quit_script a = quit_script b → a = b)
  ∧ (activate_script a = activate_script b → a = b)
  ∧ (get_applescript_check_app_exists a = get_applescript_check_app_exists b → a = b)
  ∧ (get_applescript_maximize_window a = get_applescript_maximize_window b → a = b)
  ∧ quit_script a ≠ activate_script b
  ∧ quit_script a ≠ get_applescript_check_app_exists b
  ∧ quit_script a ≠ get_applescript_maximize_window b
  ∧ quit_script a ≠ get_applescript_list_running_apps
  ∧ activate_script a ≠ get_applescript_check_app_exists b
  ∧ activate_script a ≠ get_applescript_maximize_window b
  ∧ activate_script a ≠ get_applescript_list_running_apps
  ∧ get_applescript_check_app_exists a ≠ get_applescript_maximize_window b
  ∧ get_applescript_check_app_exists a ≠ get_applescript_list_running_apps
  ∧ get_applescript_maximize_window a ≠ get_applescript_list_running_apps.
Proof.
  split_and!.
  - apply quit_script_inj.
  - apply activate_script_inj.
  - apply check_script_inj.
  - apply maximize_script_inj.
  - intros H. pose proof (quit_script_end a) as Hend.
    rewrite H, activate_script_end in Hend. discriminate.
  - intros H. apply (f_equal chars) in H. vm_compute in H. discriminate.
  - intros H. apply (f_equal chars) in H. vm_compute in H. discriminate.
  - apply quit_script_not_list.
  - intros H. symmetry in H. by apply check_script_not_activate in H.
  - intros H. apply (f_equal chars) in H. vm_compute in H. discriminate.
  - intros H. pose proof (activate_script_end a) as Hend.
    rewrite H in Hend. vm_compute in Hend. discriminate.
  - apply check_script_not_maximize.
  - intros H. apply (f_equal chars) in H. vm_compute in H. discriminate.
  - intros H. apply (f_equal chars) in H. vm_compute in H. discriminate.
Qed.

(** ** The countdown loop, for any duration *)

Lemma range_down_seq n : Py.range_down n = reverse (seq 1 n).
Proof.
  induction n as [|n IH]; [done|].
  rewrite seq_S, reverse_app. simpl. by rewrite IH.
Qed.

Lemma printed_countdown_ticks n :
  printed (countdown_ticks n) = (λ i, pretty i +:+ "...") <$> Py.range_down n.
Proof.
  induction n as [|n IH]; [done|].
  change ((pretty (S n) +:+ "...") :: printed (countdown_ticks n)
          = (pretty (S n) +:+ "...") :: ((λ i, pretty i +:+ "...") <$> Py.range_down n)).
  by rewrite IH.
Qed.

Lemma slept_countdown_ticks n : slept (countdown_ticks n) = (1000 * N.of_nat n)%N.
Proof. induction n as [|n IH]; [done|]. cbn [countdown_ticks slept foldr]. fold (slept (countdown_ticks n)). lia. Qed.

(** X12. The loop of lines 165-167 works for every duration [n], not only for
    the configured 3: when no Ctrl-C arrives during its sleeps it prints the
    [n] lines "n...", ..., "1..." in descending order, sleeps [n] seconds in
    all, runs no script and ends normally; for [n = 0] it does nothing. *)
Theorem countdown_of_any_length (w : world) n h :
  (∀ p, p ∈ sleep_points n → sigint w (h ++ p) = false) →
  let result := for_each (Py.range_down n) (tick w) h in
  result.1 = Ok tt
  ∧ printed result.2 = (λ i, pretty i +:+ "...") <$> reverse (seq 1 n)
  ∧ slept result.2 = (1000 * N.of_nat n)%N
  ∧ osascripts result.2 = []
  ∧ length result.2 = 2 * n.
Proof.
  intros Hquiet result. subst result. rewrite ticks_complete by done. cbn [fst snd].
  split_and!; [done| | | |].
  - by rewrite printed_countdown_ticks, range_down_seq.
  - apply slept_countdown_ticks.
  - apply osascripts_countdown_ticks.
  - clear. induction n as [|n IH]; [done|]. simpl. rewrite IH. lia.
Qed.

Lemma countdown_of_any_length_witness :
  printed (for_each (Py.range_down 5) (tick three_apps) []).2
    = ["5..."; "4..."; "3..."; "2..."; "1..."].
Proof.
  pose proof (countdown_of_any_length three_apps 5 []) as H.
  destruct H as (_ & Hprinted & _); [done|].
  rewrite Hprinted. reflexivity.
Defined.

(** ** The test of line 217 *)

Lemma prefix_spec sub s : String.prefix sub s = true ↔ ∃ post, s = sub +:+ post.
Proof.
  revert s. induction sub as [|a sub IH]; intros s.
  - split; [by exists s|by destruct s].
  - destruct s as [|b s]; simpl.
    + split; [done|]. by intros [post [=]].
    + destruct (ascii_dec a b) as [->|Hne].
      * rewrite IH. split; intros [post Hpost]; exists post; [by rewrite Hpost|].
        by injection Hpost.
      * split; [done|]. intros [post Hpost]. injection Hpost as -> _. done.
Qed.

Lemma contains_spec sub s :
  Py.contains sub s = true ↔ ∃ pre post, s = pre +:+ sub +:+ post.
Proof.
  induction s as [|c s IH].
  - cbn [Py.contains]. destruct (String.prefix sub "") eqn:Hp.
    + split; [|done]. intros _. apply prefix_spec in Hp as [post Hpost]. by exists "", post.
    + split; [done|]. intros (pre & post & Hs). destruct pre as [|? ?]; [|done].
      assert (String.prefix sub "" = true) as Htrue by (apply prefix_spec; by exists post).
      congruence.
  - cbn [Py.contains]. destruct (String.prefix sub (String c s)) eqn:Hp.
    + split; [|done]. intros _. apply prefix_spec in Hp as [post Hpost]. by exists "", post.
    + rewrite IH. split.
      * intros (pre & post & ->). by exists (String c pre), post.
      * intros (pre & post & Hs). destruct pre as [|c' pre].
        -- assert (String.prefix sub (String c s) = true) as Htrue
             by (apply prefix_spec; by exists post).
           congruence.
        -- injection Hs as -> ->. by exists pre, post.
Qed.

(** X13. The checking loop keeps a spec exactly when the check exits with
    status 0 and its stripped output has the five letters "found" somewhere
    in it; in every other case in which the call did not raise, the list is
    left as it was. *)
Theorem check_app_keeps_iff (w : world) spec installed_apps h :
  ((check_app w spec installed_apps h).1 = Ok (installed_apps ++ [spec])
   ↔ ∃ stdout pre post,
       osascript w h (get_applescript_check_app_exists spec.1) = Exit0 stdout
       ∧ Py.strip stdout = pre +:+ "found" +:+ post)
  ∧ (∀ kept, (check_app w spec installed_apps h).1 = Ok kept →
       kept = installed_apps ++ [spec] ∨ kept = installed_apps).
Proof.
  rewrite check_app_run. cbv zeta. cbn [fst].
  assert (installed_apps ≠ installed_apps ++ [spec]) as Hne.
  { intros H. apply (f_equal length) in H. rewrite length_app in H. simpl in H. lia. }
  assert (∀ stdout, confirmed (Exit0 stdout) = true
            ↔ ∃ pre post, Py.strip stdout = pre +:+ "found" +:+ post) as Hconf.
  { intros stdout. etrans; [|apply contains_spec]. unfold confirmed.
    by destruct (Py.strip stdout) as [|c s]. }
  destruct (osascript w h _) as [stdout|err| |msg|msg].
  - split.
    + split.
      * intros Hkept. exists stdout. destruct (confirmed (Exit0 stdout)) eqn:Hc.
        -- apply Hconf in Hc as (pre & post & Hs). by exists pre, post.
        -- injection Hkept as Hkept. done.
      * intros (stdout' & pre & post & [= <-] & Hs).
        assert (confirmed (Exit0 stdout) = true) as -> by (apply Hconf; by exists pre, post).
        done.
    + intros kept Hkept. destruct (confirmed (Exit0 stdout)); injection Hkept as <-; auto.
  - split; [split|].
    + intros [= H]. done.
    + by intros (? & ? & ? & [=] & _).
    + intros kept [= <-]. by right.
  - split; [split|]; [done|by intros (? & ? & ? & [=] & _)|done].
  - split; [split|]; [done|by intros (? & ? & ? & [=] & _)|done].
  - split; [split|]; [done|by intros (? & ? & ? & [=] & _)|done].
Qed.

(** * The loops and the list of names, answer by answer *)

(** C3, at the input that separates the code from the claim.  Chrome answers
    the quit request with a non-zero exit.  [run_applescript] absorbs the
    [CalledProcessError], so the [except] branch of line 179 with its "Failed
    to close" line is not reached: the round prints the interpreter's error
    and then "Closed Chrome", the line that reports success.  The next
    application is asked all the same. *)
Theorem close_all_reports_failed_quit_as_closed :
  close_all_gui_apps chrome_refuses (Some {["Terminal"]}) [] =
    (Ok tt,
     [Print "Getting list of running GUI applications...";
      Osascript get_applescript_list_running_apps;
      Print (LF +:+ "Found 2 applications to close:");
      Print "  - Chrome"; Print "  - Notes";
      Print (LF +:+ "Starting countdown: 3 seconds to cancel (Ctrl+C)...");
      Print "3..."; Sleep 1000; Print "2..."; Sleep 1000; Print "1..."; Sleep 1000;
      Print (LF +:+ "Closing applications...");
      Osascript (quit_script "Chrome");
      Print "  ✗ AppleScript error: execution error: User canceled. (-128)";
      Print "  ✓ Closed Chrome"; Sleep 200;
      Osascript (quit_script "Notes");
      Print "  ✓ Closed Notes"; Sleep 200;
      Sleep 1000;
      Print (LF +:+ "All applications closed.")]).
Proof. vm_compute. reflexivity. Qed.

(** ** [str.split] and [str.strip], characterised *)

Lemma string_app_assoc a b c : (a +:+ b) +:+ c = a +:+ b +:+ c.
Proof. apply chars_inj. by rewrite !chars_app, app_assoc. Qed.

Lemma string_app_nil_r a : a +:+ "" = a.
Proof. apply chars_inj. rewrite chars_app. unfold chars at 2. simpl. by rewrite app_nil_r. Qed.

Lemma rev_app a b : String.rev (a +:+ b) = String.rev b +:+ String.rev a.
Proof. apply chars_inj. by rewrite chars_rev, !chars_app, reverse_app, !chars_rev. Qed.

Lemma all_space_rev s : all_space s → all_space (String.rev s).
Proof. unfold all_space. rewrite chars_rev. apply Forall_reverse. Qed.

Lemma split_not_nil s : Py.split "," s ≠ [].
Proof. destruct s as [|c s]; simpl; [done|]. destruct (Ascii.eqb c ","); [done|]. by destruct (Py.split "," s). Qed.

(** Joining the pieces with commas gives the text back. *)
Lemma split_join s : String.concat "," (Py.split "," s) = s.
Proof.
  induction s as [|c s IH]; [done|]. simpl.
  pose proof (split_not_nil s) as Hne.
  destruct (Ascii.eqb_spec c ","%char) as [->|Hc];
    destruct (Py.split "," s) as [|tok toks]; try done.
  - change (String.concat "," ("" :: tok :: toks))
      with ("" +:+ "," +:+ String.concat "," (tok :: toks)).
    by rewrite IH.
  - destruct toks as [|tok' toks]; [by rewrite <- IH|].
    change (String.concat "," (String c tok :: tok' :: toks))
      with (String c (tok +:+ "," +:+ String.concat "," (tok' :: toks))).
    by rewrite <- IH.
Qed.

Lemma lstrip_decompose s : ∃ l, s = l +:+ Py.lstrip s ∧ all_space l.
Proof.
  induction s as [|c s (l & Hl & Hsp)].
  - exists "". by split; [|constructor].
  - simpl. destruct (Py.isspace c) eqn:Hc.
    + exists (String c l). split; [by rewrite Hl at 1|]. by constructor.
    + exists "". by split; [|constructor].
Qed.

Lemma rstrip_decompose s : ∃ r, s = Py.rstrip s +:+ r ∧ all_space r.
Proof.
  destruct (lstrip_decompose (String.rev s)) as (l & Hl & Hsp).
  exists (String.rev l). split; [|by apply all_space_rev].
  unfold Py.rstrip. rewrite <- rev_app, <- Hl. by rewrite rev_involutive.
Qed.

Lemma strip_trimmed s : trimmed s (Py.strip s).
Proof.
  split; [|apply strip_no_surrounding_space].
  destruct (lstrip_decompose s) as (l & Hl & Hlsp).
  destruct (rstrip_decompose (Py.lstrip s)) as (r & Hr & Hrsp).
  exists l, r. split_and!; [|done|done].
  unfold Py.strip. by rewrite <- Hr.
Qed.

(** C10. [get_running_gui_apps] returns the empty list when the call exits
    with a non-zero status and also when it succeeds with nothing but
    whitespace on its output.  Otherwise the output, without the whitespace
    around it, is cut at its commas: the pieces have no comma in them and,
    joined with commas, give the output back; the result holds, in the same
    order, each piece without the whitespace around it.  There is one entry
    more than there are commas and no entry has a comma, so a name with a
    comma in it comes back as several entries.  A call that raises makes the
    function raise. *)
Theorem get_running_gui_apps_tokens w h :
  match osascript w h get_applescript_list_running_apps with
  | Exit0 stdout =>
      ∃ output, trimmed stdout output ∧
        ((output = "" ∧ (get_running_gui_apps w h).1 = Ok [])
         ∨ (output ≠ "" ∧ ∃ pieces apps,
              String.concat "," pieces = output
              ∧ Forall (λ piece, commas piece = 0) pieces
              ∧ Forall2 trimmed pieces apps
              ∧ (get_running_gui_apps w h).1 = Ok apps
              ∧ length apps = S (commas output)
              ∧ Forall (λ app, commas app = 0) apps))
  | NonZero _ => (get_running_gui_apps w h).1 = Ok []
  | Interrupted => (get_running_gui_apps w h).1 = Raised KeyboardInterrupt
  | Unavailable msg => (get_running_gui_apps w h).1 = Raised (OSError msg)
  | Undecodable msg => (get_running_gui_apps w h).1 = Raised (UnicodeDecodeError msg)
  end.
Proof.
  rewrite get_running_gui_apps_run.
  destruct (osascript w h _) as [stdout| | | |]; try reflexivity.
  exists (Py.strip stdout). split; [apply strip_trimmed|]. cbn [fst].
  case_decide as Hout; [by left|right]. split; [done|].
  exists (Py.split "," (Py.strip stdout)), (Py.strip <$> Py.split "," (Py.strip stdout)).
  split_and!.
  - apply split_join.
  - apply split_no_comma.
  - apply Forall2_fmap_r, Forall_Forall2_diag, Forall_forall.
    intros piece _. apply strip_trimmed.
  - done.
  - by rewrite length_fmap, split_length.
  - apply Forall_fmap. eapply Forall_impl; [apply split_no_comma|].
    intros tok Htok. simpl in *. pose proof (commas_strip tok) as Hle.
    rewrite Htok in Hle. by apply Nat.le_0_r.
Qed.

(** ** The two loops of [open_and_maximize_apps], answer by answer *)

Section ChecksFirst.
Context (w : world).

Local Abbreviation checking := (Print (LF +:+ "Checking installed applications...")).
Local Abbreviation opening := (Print (LF +:+ "Opening and maximizing applications...")).
Local Abbreviation complete :=
  (Print (LF +:+ "✓ Workflow complete! All applications opened and maximized.")).

Lemma stopped_skip reply replies :
  escapes reply = None → stopped (reply :: replies) = stopped replies.
Proof. intros H. unfold stopped. destruct replies as [|r rs]; [by simpl|done]. Qed.

Lemma checking_loop_run specs acc h :
  for_acc specs acc (check_app w) h =
    (match stopped (check_replies w specs h) with
     | Some e => Raised e
     | None => Ok (acc ++ installed_among specs (check_replies w specs h))
     end,
     concat (zip_with check_events specs (check_replies w specs h))).
Proof.
  revert acc h. induction specs as [|spec specs IH]; intros acc h.
  { simpl. by rewrite app_nil_r. }
  cbn [for_acc check_replies]. rewrite bind_run, check_app_run. cbv zeta.
  destruct (osascript w h (get_applescript_check_app_exists spec.1)) as [out|err| |msg|msg] eqn:Hr;
    cbn [escapes].
  3-5: cbn [zip_with]; rewrite zip_with_nil_r; cbn [concat]; rewrite app_nil_r; done.
  - rewrite IH, stopped_skip by done. cbn [zip_with concat installed_among].
    destruct (stopped _); [done|].
    destruct (confirmed (Exit0 out)); [|done]. by rewrite <- app_assoc.
  - rewrite IH, stopped_skip by done. cbn [zip_with concat installed_among].
    destruct (stopped _); [done|].
    destruct (confirmed (NonZero err)); [|done]. by rewrite <- app_assoc.
Qed.

Lemma check_replies_length specs h :
  length (check_replies w specs h) ≤ length specs
  ∧ (stopped (check_replies w specs h) = None →
     length (check_replies w specs h) = length specs).
Proof.
  revert h. induction specs as [|spec specs IH]; intros h; [done|].
  cbn [check_replies].
  destruct (osascript w h (get_applescript_check_app_exists spec.1)) as [out|err| |msg|msg] eqn:Hr;
    cbn [escapes]; try (split; [simpl; lia|done]).
  - destruct (IH (h ++ check_events spec (Exit0 out))) as [Hle Heq].
    rewrite stopped_skip by done. simpl. split; [lia|]. intros Hs. by rewrite Heq.
  - destruct (IH (h ++ check_events spec (NonZero err))) as [Hle Heq].
    rewrite stopped_skip by done. simpl. split; [lia|]. intros Hs. by rewrite Heq.
Qed.

Lemma osascripts_check_rounds specs replies :
  length replies ≤ length specs →
  osascripts (concat (zip_with check_events specs replies)) =
    (λ spec, get_applescript_check_app_exists spec.1) <$> take (length replies) specs.
Proof.
  revert replies. induction specs as [|spec specs IH]; intros [|r replies] Hlen;
    simpl in Hlen; try done; try lia.
  change (osascripts (check_events spec r ++ concat (zip_with check_events specs replies))
          = get_applescript_check_app_exists spec.1 ::
            ((λ spec, get_applescript_check_app_exists spec.1) <$>
               take (length replies) specs)).
  rewrite osascripts_app, osascripts_check_events, IH by lia. done.
Qed.

Lemma opening_loop_script_rounds installed h :
  ∃ opened script_rounds,
    opened `prefix_of` installed
    ∧ Forall2 opening_scripts opened script_rounds
    ∧ osascripts (for_each installed (open_app w) h).2 = concat script_rounds
    ∧ ((for_each installed (open_app w) h).1 = Ok tt → opened = installed)
    ∧ ((for_each installed (open_app w) h).1 = Ok tt
       ∨ (for_each installed (open_app w) h).1 = Raised KeyboardInterrupt).
Proof.
  revert h. induction installed as [|spec specs IH]; intros h.
  { exists [], []. split_and!; [done|constructor|done|done|by left]. }
  simpl. rewrite bind_run.
  destruct (open_app_run w spec h) as (Hscripts & Hout & _).
  destruct (open_app w spec h) as [r es]. cbn [fst snd] in Hscripts, Hout.
  destruct Hout as [-> | ->].
  - destruct (IH (h ++ es)) as (opened & rounds & Hpre & Hall & Hs & Hok & Hends).
    destruct (for_each specs _ _) as [r' es']. cbn [fst snd] in *.
    exists (spec :: opened), (osascripts es :: rounds).
    split_and!; [by apply prefix_cons|by constructor| |intros Hr; by rewrite Hok|done].
    by rewrite osascripts_app, Hs.
  - exists [spec], [osascripts es].
    split_and!; [by apply prefix_cons, prefix_nil| | |done|by right].
    + constructor; [exact Hscripts|constructor].
    + simpl. by rewrite app_nil_r.
Qed.

(** C9. The trace of [open_and_maximize_apps] is the heading, then one round
    of the checking loop per spec, in input order, each made of the check
    script and the lines that log the world's answer to it, then everything
    else.  When a check raises, the call raises with it and nothing else
    happens.  Otherwise every spec has been checked before the heading of the
    second phase is printed, and what follows is one round of scripts, the
    activation and then the maximize script, per spec the checks kept, in
    order: for all of them when the call returns, for an initial part when a
    Ctrl-C ends it.  Hence a script that activates or maximizes always comes
    later in the trace than every check.  When no Ctrl-C arrives and every
    call can be started and decoded, the call returns. *)
Theorem open_and_maximize_checks_first apps_to_open h :
  let result := open_and_maximize_apps w apps_to_open h in
  let replies := check_replies w apps_to_open (h ++ [checking]) in
  let rounds := concat (zip_with check_events apps_to_open replies) in
  let installed_apps := installed_among apps_to_open replies in
  ∃ rest,
    result.2 = checking :: rounds ++ rest
    ∧ osascripts rounds =
        (λ spec, get_applescript_check_app_exists spec.1) <$>
          take (length replies) apps_to_open
    ∧ match stopped replies with
      | Some e => result.1 = Raised e ∧ rest = []
      | None =>
          length replies = length apps_to_open
          ∧ ∃ opened script_rounds tail,
              rest = opening :: tail
              ∧ osascripts tail = concat script_rounds
              ∧ opened `prefix_of` installed_apps
              ∧ Forall2 opening_scripts opened script_rounds
              ∧ (result.1 = Ok tt → opened = installed_apps)
              ∧ (result.1 = Ok tt ∨ result.1 = Raised KeyboardInterrupt)
      end
    ∧ (∀ i j opener check,
         result.2 !! i = Some (Osascript opener) → opens_one_of apps_to_open opener →
         result.2 !! j = Some (Osascript check) → is_check_script check →
         j < i)
    ∧ (uninterrupted w → available w → result.1 = Ok tt).
Proof.
  intros result replies rounds installed_apps.
  destruct (check_replies_length apps_to_open (h ++ [checking])) as [Hle Hfull].
  fold replies in Hle, Hfull.
  pose proof (osascripts_check_rounds apps_to_open replies Hle) as Hchecks.
  fold rounds in Hchecks.
  assert (∃ rest,
    result.2 = checking :: rounds ++ rest
    ∧ match stopped replies with
      | Some e => result.1 = Raised e ∧ rest = []
      | None =>
          length replies = length apps_to_open
          ∧ ∃ opened script_rounds tail,
              rest = opening :: tail
              ∧ osascripts tail = concat script_rounds
              ∧ opened `prefix_of` installed_apps
              ∧ Forall2 opening_scripts opened script_rounds
              ∧ (result.1 = Ok tt → opened = installed_apps)
              ∧ (result.1 = Ok tt ∨ result.1 = Raised KeyboardInterrupt)
      end
    ∧ Forall (opens_one_of apps_to_open) (osascripts rest)
    ∧ (uninterrupted w → available w → result.1 = Ok tt))
    as (rest & Htrace & Hphase & Hopen & Hret).
  { subst result. rewrite open_and_maximize_apps_run, checking_loop_run.
    fold replies rounds installed_apps.
    pose proof (checking_loop_returns w apps_to_open [] (h ++ [checking])) as Hcr.
    rewrite checking_loop_run in Hcr. fold replies in Hcr. cbn [fst] in Hcr.
    destruct (stopped replies) as [e|] eqn:Hstop.
    { exists []. rewrite app_nil_r. split_and!; [done|done|done|constructor|].
      intros Hun Hav. by destruct (Hcr Hun Hav). }
    cbn [app].
    destruct (opening_loop_script_rounds installed_apps (h ++ checking :: rounds ++ [opening]))
      as (opened & script_rounds & Hpre & Hall & Hs & Hok & Hends).
    pose proof (opening_loop_scripts w installed_apps
                  (h ++ checking :: rounds ++ [opening])) as Hos.
    pose proof (opening_loop_returns w installed_apps
                  (h ++ checking :: rounds ++ [opening])) as Hor.
    assert (Forall (opens_one_of apps_to_open)
              (osascripts (for_each installed_apps (open_app w)
                             (h ++ checking :: rounds ++ [opening])).2)) as Hos'.
    { eapply Forall_impl; [exact Hos|]. intros script (spec & Hin & Hsc).
      exists spec. split; [|done]. by eapply installed_among_subseteq. }
    destruct (for_each installed_apps _ _) as [[[]|e] oe]; cbn [fst snd] in *.
    - exists (opening :: oe ++ [complete]). split; [done|split; [|split; [|done]]].
      + split; [by apply Hfull|].
        exists opened, script_rounds, (oe ++ [complete]).
        split_and!; try done. by rewrite osascripts_app, Hs, app_nil_r.
      + by rewrite osascripts_print, osascripts_app, app_nil_r.
    - exists (opening :: oe). split; [done|split; [|split; [by rewrite osascripts_print|]]].
      + split; [by apply Hfull|]. by exists opened, script_rounds, oe.
      + intros Hun _. by specialize (Hor Hun). }
  exists rest. split_and!; try done.
  intros i j opener check Hi Hopener Hj Hcheck. rewrite Htrace in Hi, Hj.
  assert (length rounds < i) as Hlate.
  { destruct i as [|i]; [done|]. cbn in Hi.
    apply lookup_app_Some in Hi as [Hi|[Hlen' _]]; [|lia].
    apply osascript_in_part in Hi. rewrite Hchecks in Hi.
    apply list_elem_of_fmap in Hi as (spec & -> & _).
    exfalso. eapply check_not_opening; [|done]. by eexists. }
  destruct j as [|j]; [lia|]. cbn in Hj.
  apply lookup_app_Some in Hj as [Hj|[_ Hj]].
  { apply lookup_lt_Some in Hj. lia. }
  apply osascript_in_part in Hj.
  eapply Forall_forall in Hopen; [|done].
  exfalso. by eapply check_not_opening.
Qed.

(** X7. A check call that raises (the interpreter cannot be started, its
    output cannot be decoded, or a Ctrl-C arrives) is not guarded: the
    exception escapes [open_and_maximize_apps] at once.  The trace stops with
    the check rounds made so far, every script run is a check, and nothing
    has been activated or maximized. *)
Theorem open_and_maximize_check_raises apps_to_open h e :
  stopped (check_replies w apps_to_open (h ++ [checking])) = Some e →
  let replies := check_replies w apps_to_open (h ++ [checking]) in
  let result := open_and_maximize_apps w apps_to_open h in
  result = (Raised e, checking :: concat (zip_with check_events apps_to_open replies))
  ∧ escapes <$> last replies = Some (Some e)
  ∧ Forall is_check_script (osascripts result.2).
Proof.
  intros Hstop replies result. subst result.
  rewrite open_and_maximize_apps_run, checking_loop_run. fold replies.
  fold replies in Hstop. rewrite Hstop. cbn [snd]. split_and!; [done| |].
  - unfold stopped in Hstop. destruct (last replies) as [r|]; [|done].
    simpl in *. by rewrite Hstop.
  - rewrite osascripts_print.
    destruct (check_replies_length apps_to_open (h ++ [checking])) as [Hle _].
    rewrite osascripts_check_rounds by done.
    apply Forall_fmap, Forall_forall. intros spec _. by eexists.
Qed.

End ChecksFirst.

Lemma open_and_maximize_check_raises_witness :
  open_and_maximize_apps no_osascript APPS_TO_OPEN [] =
    (Raised (OSError "No such file or directory: 'osascript'"),
     [Print (LF +:+ "Checking installed applications...");
      Osascript (get_applescript_check_app_exists "Google Chrome")]).
Proof.
  destruct (open_and_maximize_check_raises no_osascript APPS_TO_OPEN []
              (OSError "No such file or directory: 'osascript'")) as (Hrun & _ & _).
  - reflexivity.
  - exact Hrun.
Defined.

(** ** The opening loop, round by round *)

Section OpeningRounds.
Context (w : world).

Local Abbreviation checking := (Print (LF +:+ "Checking installed applications...")).
Local Abbreviation opening := (Print (LF +:+ "Opening and maximizing applications...")).
Local Abbreviation complete :=
  (Print (LF +:+ "✓ Workflow complete! All applications opened and maximized.")).

Lemma open_app_round spec h :
  uninterrupted w → open_app w spec h = (Ok tt, open_round w spec h).
Proof.
  intros [Hns Hni]. destruct spec as [a p].
  unfold open_round, open_app, try_except, maximize_window, open_events, error_line.
  cbn [fst snd default]. cbv zeta.
  rewrite bind_run. unfold print at 1. cbv iota beta.
  rewrite bind_run, run_applescript_run.
  pose proof (Hni (h ++ [Print (LF +:+ "  Opening " +:+ a +:+ "...")]) (activate_script a))
    as Hact.
  destruct (osascript w (h ++ [Print (LF +:+ "  Opening " +:+ a +:+ "...")])
              (activate_script a)) as [out|err| |msg|msg] eqn:Hr1;
    cbv iota beta; cbn [is_Exception]; [| |done|done|done].
  all: rewrite bind_run; unfold sleep at 1; rewrite Hns; cbv iota beta.
  all: rewrite bind_run; unfold print at 1; cbv iota beta.
  all: rewrite bind_run, bind_run, run_applescript_run.
  all: unfold id; flatten.
  all: match goal with |- context [osascript w ?h' (get_applescript_maximize_window ?q)] =>
         pose proof (Hni h' (get_applescript_maximize_window q)) as Hmax;
         destruct (osascript w h' (get_applescript_maximize_window q))
           as [out'|err'| |msg'|msg'] eqn:Hr2
       end; cbv iota beta; cbn [is_Exception]; try done.
  all: unfold ret at 1; cbv iota beta;
       rewrite bind_run; unfold log_success at 1, print at 1; cbv iota beta;
       unfold sleep at 1; rewrite Hns; done.
Qed.

Lemma opening_loop_rounds installed h :
  uninterrupted w →
  for_each installed (open_app w) h = (Ok tt, open_rounds w installed h).
Proof.
  intros Hun. revert h. induction installed as [|spec specs IH]; intros h; [done|].
  simpl. by rewrite bind_run, open_app_round, IH.
Qed.

Lemma uninterrupted_not_interrupted h script :
  uninterrupted w → osascript w h script ≠ Interrupted.
Proof. intros [_ H]. apply H. Qed.

(** X6. When no Ctrl-C arrives and no check raises, the trace of
    [open_and_maximize_apps] is known event by event: the heading, the check
    rounds, the heading of the second phase, one round of the opening loop
    for every spec the checks kept, in list order and whatever happened in
    the earlier rounds, and the closing line; the call returns.  A round
    whose two calls can be started is the line "Opening <app>", the
    activation, a pause of 2 s, the line "Maximizing <app>", the maximize
    script, the line "<app> ready" and a pause of 0.5 s; a call that exits
    with a non-zero status only adds an "AppleScript error" line with its
    standard error, right after the call (the "ready" line is printed all the
    same).  A call that cannot be started or decoded ends the round with a
    "Failed to open/maximize" line: after the activation nothing else of the
    round happens, after the maximize script the "ready" line and the last
    pause are left out. *)
Theorem open_and_maximize_rounds apps_to_open h :
  uninterrupted w →
  let replies := check_replies w apps_to_open (h ++ [checking]) in
  let checks := concat (zip_with check_events apps_to_open replies) in
  let installed_apps := installed_among apps_to_open replies in
  stopped replies = None →
  open_and_maximize_apps w apps_to_open h =
    (Ok tt,
     checking :: checks ++
     opening :: open_rounds w installed_apps (h ++ checking :: checks ++ [opening]) ++
     [complete])
  ∧ (∀ spec h',
       let failed msg :=
         Print ("  ✗ Failed to open/maximize " +:+ spec.1 +:+ ": " +:+ msg) in
       let start := Print (LF +:+ "  Opening " +:+ spec.1 +:+ "...") in
       let activation := osascript w (h' ++ [start]) (activate_script spec.1) in
       let first :=
         start :: Osascript (activate_script spec.1) :: error_line activation in
       let second := [Sleep 2000; Print ("  Maximizing " +:+ spec.1 +:+ "...")] in
       let maximization :=
         osascript w (h' ++ first ++ second) (get_applescript_maximize_window spec.2) in
       let third :=
         Osascript (get_applescript_maximize_window spec.2) :: error_line maximization in
       let last := [Print ("  ✓ " +:+ spec.1 +:+ " ready"); Sleep 500] in
       match activation, maximization with
       | Interrupted, _ => False
       | (Unavailable msg | Undecodable msg), _ => open_round w spec h' = first ++ [failed msg]
       | _, Interrupted => False
       | _, (Unavailable msg | Undecodable msg) =>
           open_round w spec h' = first ++ second ++ third ++ [failed msg]
       | _, _ => open_round w spec h' = first ++ second ++ third ++ last
       end).
Proof.
  intros Hun replies checks installed_apps Hstop. split.
  - rewrite open_and_maximize_apps_run, checking_loop_run.
    fold replies checks installed_apps. rewrite Hstop.
    cbn [app]. by rewrite opening_loop_rounds.
  - intros spec h'. cbv zeta. unfold open_round, open_events. cbv zeta.
    pose proof (uninterrupted_not_interrupted
                  (h' ++ [Print (LF +:+ "  Opening " +:+ spec.1 +:+ "...")])
                  (activate_script spec.1) Hun) as Hact.
    destruct (osascript w (h' ++ [Print (LF +:+ "  Opening " +:+ spec.1 +:+ "...")])
                (activate_script spec.1)) as [out|err| |msg|msg]; try done.
    all: cbn [error_line app].
    all: match goal with |- context [osascript w ?x (get_applescript_maximize_window ?q)] =>
           pose proof (uninterrupted_not_interrupted x
                         (get_applescript_maximize_window q) Hun) as Hmax;
           destruct (osascript w x (get_applescript_maximize_window q))
             as [out'|err'| |msg'|msg']
         end; done.
Qed.

End OpeningRounds.

Lemma chrome_will_not_start_uninterrupted : uninterrupted chrome_will_not_start.
Proof. split; [done|]. intros h script. simpl. by repeat case_decide. Defined.

Lemma open_and_maximize_rounds_witness :
  open_and_maximize_apps chrome_will_not_start APPS_TO_OPEN [] =
    (Ok tt,
     [Print (LF +:+ "Checking installed applications...");
      Osascript (get_applescript_check_app_exists "Google Chrome");
      Print "  ✓ Google Chrome found";
      Print (LF +:+ "Opening and maximizing applications...");
      Print (LF +:+ "  Opening Google Chrome...");
      Osascript (activate_script "Google Chrome");
      Print "  ✗ AppleScript error: execution error: Application is not running. (-600)";
      Sleep 2000;
      Print "  Maximizing Google Chrome...";
      Osascript (get_applescript_maximize_window "Google Chrome");
      Print "  ✓ Google Chrome ready";
      Sleep 500;
      Print (LF +:+ "✓ Workflow complete! All applications opened and maximized.")]).
Proof.
  destruct (open_and_maximize_rounds chrome_will_not_start APPS_TO_OPEN []
              chrome_will_not_start_uninterrupted) as [Hrun _].
  - vm_compute. reflexivity.
  - rewrite Hrun. vm_compute. reflexivity.
Defined.

(** ** How [close_all_gui_apps] ends *)

Section CloseAllOutcomes.
Context (w : world).

Local Abbreviation getting := (Print "Getting list of running GUI applications...").

(** X3. The enumeration of [close_all_gui_apps] is not guarded: when its call
    raises (a Ctrl-C, an interpreter that cannot be started, output that
    cannot be decoded), the exception escapes at once and the trace is the
    heading and that call, nothing is announced and no quit request is made.
    When the call does not raise, whatever it and the later quit requests
    answer, the function returns, raises [SystemExit(0)] or raises
    [KeyboardInterrupt]: the errors of the quit requests never get out, and
    no [SystemExit] has another code. *)
Theorem close_all_gui_apps_ends excluded_apps h :
  let result := close_all_gui_apps w excluded_apps h in
  match escapes (osascript w (h ++ [getting]) get_applescript_list_running_apps) with
  | Some e =>
      result = (Raised e, [getting; Osascript get_applescript_list_running_apps])
  | None =>
      result.1 = Ok tt ∨ result.1 = Raised (SystemExit 0)
      ∨ result.1 = Raised KeyboardInterrupt
  end.
Proof.
  intros result. subst result.
  destruct (get_running_gui_apps w (h ++ [getting])) as [[R|e] es0] eqn:Hrun.
  - assert (escapes (osascript w (h ++ [getting]) get_applescript_list_running_apps) = None)
      as ->.
    { rewrite get_running_gui_apps_run in Hrun.
      by destruct (osascript w (h ++ [getting]) get_applescript_list_running_apps). }
    pose proof (close_all_gui_apps_run w excluded_apps h R es0 Hrun) as Hstages.
    cbv zeta in Hstages. rewrite Hstages. clear Hstages.
    destruct (filter _ R) as [|a Q'] eqn:HQ; [by left|]. rewrite <- HQ.
    destruct (countdown_cases w (h ++ getting :: es0 ++ announcement (filter
                (λ app, app ∉ default EXCLUDED_APPS excluded_apps) R)))
      as [Hcd|(p & _ & Hcd)]; rewrite Hcd; [|by right; left].
    match goal with |- context [for_each ?apps _ ?h'] =>
      destruct (closing_loop_outcome w apps h') as [Hloop|Hloop];
      destruct (for_each apps (close_app w) h') as [r ce] end;
      cbn [fst] in Hloop; subst r; [|by right; right].
    destruct (sigint w _); [by right; right|by left].
  - rewrite (close_all_gui_apps_enumeration_raised w excluded_apps h e es0 Hrun).
    rewrite get_running_gui_apps_run in Hrun.
    destruct (osascript w (h ++ [getting]) get_applescript_list_running_apps)
      as [out|err| |msg'|msg']; try discriminate; by injection Hrun as <- <-.
Qed.

End CloseAllOutcomes.

Lemma close_all_gui_apps_ends_witness :
  close_all_gui_apps no_osascript None [] =
    (Raised (OSError "No such file or directory: 'osascript'"),
     [Print "Getting list of running GUI applications...";
      Osascript get_applescript_list_running_apps]).
Proof. exact (close_all_gui_apps_ends no_osascript None []). Defined.
